(** * Review.jsx: the review list, its submission form and the star widget

    A shallow embedding of [src/component/Review.jsx] (the extended variant
    with sorting and filtering; the other variant is the same component
    without [sortBy], [filterRating] and [sortedAndFilteredReviews]).

    - JavaScript strings typed by the user are sequences of UTF-16 code
      units ([jsstring]); object keys and the literal error messages are
      plain [string]s.
    - [formErrors] is a JavaScript object used as a map: [gmap string string].
    - The React state of the component is the record [State]; every handler
      is a function on it.  [handleSubmit] suspends at its [await]: it
      returns the state at the suspension point together with the suspended
      continuation, which holds the [newReview] its closure captured.
    - The rendered tree decides which handlers the user can reach
      ([rendered]); [dispatch] runs one user action to completion. *)

From Stdlib Require Import ZArith List Sorting.Sorted Sorting.Permutation.
From Stdlib Require Import Floats.SpecFloat.
From stdpp Require Import base tactics option list gmap strings pretty.

Open Scope Z_scope.

(** ** JavaScript strings and [String.prototype.trim] *)

Module JsString.

(** A string is its sequence of UTF-16 code units. *)
Definition jsstring : Type := list N.

(** A literal of the source, all of whose characters are single code units. *)
Definition lit (s : string) : jsstring :=
  List.map Ascii.N_of_ascii (String.list_ascii_of_string s).

(** WhiteSpace and LineTerminator code points of ECMAScript; all of them
    are single code units. *)
Definition isWhiteSpace (c : N) : bool :=
  (  (9 <=? c) && (c <=? 13)            (* TAB, LF, VT, FF, CR *)
  || (c =? 32) || (c =? 160)            (* SP, NBSP *)
  || (c =? 5760)                        (* U+1680 *)
  || (8192 <=? c) && (c <=? 8202)       (* U+2000 .. U+200A *)
  || (c =? 8232) || (c =? 8233)         (* LS, PS *)
  || (c =? 8239) || (c =? 8287)         (* U+202F, U+205F *)
  || (c =? 12288) || (c =? 65279))%N.   (* U+3000, U+FEFF *)

Fixpoint trimStart (s : jsstring) : jsstring :=
  match s with
  | [] => []
  | c :: s' => if isWhiteSpace c then trimStart s' else s
  end.

Definition trimEnd (s : jsstring) : jsstring := rev (trimStart (rev s)).

Definition trim (s : jsstring) : jsstring := trimEnd (trimStart s).

(** [s.length] *)
Definition jslength (s : jsstring) : Z := Z.of_nat (length s).

(** ToBoolean of a string: the empty string is the only falsy one. *)
Definition truthy (s : jsstring) : bool :=
  match s with [] => false | _ :: _ => true end.

End JsString.
Import JsString.

(** ** Data *)

(** [newReview]: the draft of the form. *)
Record Draft : Type := mkDraft {
  d_name : jsstring;
  d_rating : Z;
  d_comment : jsstring
}.

(** An element of [reviews].  [r_date] is the calendar day that the
    ["YYYY-MM-DD"] string [date] names, counted in days from 1970-01-01:
    [new Date(date)] is midnight UTC of that day.  Every date of the
    component is such a string: the two literals of the initial list and
    the [toISOString] prefixes made by [handleSubmit]. *)
Record Review : Type := mkReview {
  r_id : Z;
  r_name : jsstring;
  r_rating : Z;
  r_comment : jsstring;
  r_date : Z
}.

(** [{ name: '', rating: 0, comment: '' }] *)
Definition emptyDraft : Draft := mkDraft [] 0 [].

(** Days from 1970-01-01 of the civil date [y]-[m]-[d] (proleptic Gregorian). *)
Definition days_from_civil (y m d : Z) : Z :=
  let y' := if m <=? 2 then y - 1 else y in
  let era := y' / 400 in
  let yoe := y' - era * 400 in
  let doy := (153 * (if m <=? 2 then m + 9 else m - 3) + 2) / 5 + d - 1 in
  let doe := yoe * 365 + yoe / 4 - yoe / 100 + doy in
  era * 146097 + doe - 719468.

Definition msPerDay : Z := 86400000.

(** The time value of [new Date(r.date)], in milliseconds. *)
Definition dateValue (r : Review) : Z := r_date r * msPerDay.

(** The two readings of the clock taken when a review is built:
    [Date.now()] for the id and [new Date()] for the date. *)
Record Clock : Type := mkClock {
  now_id : Z;
  now_date : Z
}.

(** [new Date().toISOString().split('T')[0]]: the UTC calendar day. *)
Definition isoDay (ms : Z) : Z := ms / msPerDay.

(** ** Validation *)

Definition msg_name_required : string := "Name is required".
Definition msg_rating_missing : string := "Please select a rating".
Definition msg_comment_required : string := "Review comment is required".
Definition msg_comment_short : string := "Review must be at least 10 characters long".

(** The object [errors] built by [validateForm]. *)
Definition validationErrors (d : Draft) : gmap string string :=
  let errors : gmap string string := ∅ in
  let errors :=
    if negb (truthy (trim (d_name d)))
    then <["name" := msg_name_required]> errors else errors in
  let errors :=
    if d_rating d =? 0
    then <["rating" := msg_rating_missing]> errors else errors in
  let errors :=
    if negb (truthy (trim (d_comment d)))
    then <["comment" := msg_comment_required]> errors
    else if jslength (trim (d_comment d)) <? 10
         then <["comment" := msg_comment_short]> errors else errors in
  errors.

(** [Object.keys(errors).length === 0] *)
Definition noKeys (errors : gmap string string) : bool :=
  Nat.eqb (size errors) 0.

(** ** The component state and its handlers *)

Record State : Type := mkState {
  reviews : list Review;
  newReview : Draft;
  showForm : bool;
  isSubmitting : bool;
  formErrors : gmap string string;
  sortBy : string;
  filterRating : Z;
  reviewCount : Z              (* reviewCountRef.current *)
}.

Definition setReviews (f : list Review -> list Review) (st : State) : State :=
  mkState (f (reviews st)) (newReview st) (showForm st) (isSubmitting st)
          (formErrors st) (sortBy st) (filterRating st) (reviewCount st).

Definition setNewReview (f : Draft -> Draft) (st : State) : State :=
  mkState (reviews st) (f (newReview st)) (showForm st) (isSubmitting st)
          (formErrors st) (sortBy st) (filterRating st) (reviewCount st).

Definition setShowForm (f : bool -> bool) (st : State) : State :=
  mkState (reviews st) (newReview st) (f (showForm st)) (isSubmitting st)
          (formErrors st) (sortBy st) (filterRating st) (reviewCount st).

Definition setIsSubmitting (b : bool) (st : State) : State :=
  mkState (reviews st) (newReview st) (showForm st) b
          (formErrors st) (sortBy st) (filterRating st) (reviewCount st).

Definition setFormErrors (f : gmap string string -> gmap string string)
    (st : State) : State :=
  mkState (reviews st) (newReview st) (showForm st) (isSubmitting st)
          (f (formErrors st)) (sortBy st) (filterRating st) (reviewCount st).

Definition setSortBy (s : string) (st : State) : State :=
  mkState (reviews st) (newReview st) (showForm st) (isSubmitting st)
          (formErrors st) s (filterRating st) (reviewCount st).

Definition setFilterRating (n : Z) (st : State) : State :=
  mkState (reviews st) (newReview st) (showForm st) (isSubmitting st)
          (formErrors st) (sortBy st) n (reviewCount st).

Definition bumpReviewCount (st : State) : State :=
  mkState (reviews st) (newReview st) (showForm st) (isSubmitting st)
          (formErrors st) (sortBy st) (filterRating st) (reviewCount st + 1).

(** The two reviews the component starts with. *)
Definition initialReviews : list Review :=
  [ mkReview 1 (lit "John Doe") 5
      (lit "Excellent product! Highly recommended.") (days_from_civil 2024 1 15);
    mkReview 2 (lit "Jane Smith") 4
      (lit "Good quality, fast delivery. Very satisfied.") (days_from_civil 2024 1 10) ].

Definition initialState : State :=
  mkState initialReviews emptyDraft false false ∅ "date" 0 2.

(** ToBoolean of [formErrors[key]]: [undefined] and [''] are falsy. *)
Definition errorShown (e : option string) : bool :=
  match e with
  | Some (String _ _) => true
  | _ => false
  end.

(** [validateForm]: stores the errors and tells whether there are none. *)
Definition validateForm (st : State) : State * bool :=
  let errors := validationErrors (newReview st) in
  (setFormErrors (fun _ => errors) st, noKeys errors).

(** The part of [handleSubmit] that runs at the submit event, up to the
    [await].  [None]: validation failed and the handler returned (the calls
    to [focus] only touch the DOM).  [Some d]: the handler is suspended on
    the one-second timer and its closure holds the draft [d]. *)
Definition handleSubmit (st : State) : State * option Draft :=
  let '(st1, ok) := validateForm st in
  if negb ok then (st1, None)
  else (setIsSubmitting true st1, Some (newReview st)).

(** The rest of [handleSubmit], run when the timer fires: [captured] is the
    [newReview] of the render in which the form was submitted. *)
Definition handleSubmit_resume (captured : Draft) (clk : Clock) (st : State) : State :=
  let review :=
    mkReview (now_id clk) (d_name captured) (d_rating captured)
             (d_comment captured) (isoDay (now_date clk)) in
  let st := setReviews (fun prevReviews => review :: prevReviews) st in
  let st := bumpReviewCount st in
  let st := setNewReview (fun _ => emptyDraft) st in
  let st := setFormErrors (fun _ => ∅) st in
  let st := setShowForm (fun _ => false) st in
  setIsSubmitting false st.

(** The text controls wired to [handleInputChange]; [e.target.name] is the
    [name] attribute of the control. *)
Inductive TextField : Type := NameInput | CommentTextarea.

Definition targetName (f : TextField) : string :=
  match f with NameInput => "name" | CommentTextarea => "comment" end.

(** [{ ...prev, [name]: value }] *)
Definition setField (f : TextField) (value : jsstring) (prev : Draft) : Draft :=
  match f with
  | NameInput => mkDraft value (d_rating prev) (d_comment prev)
  | CommentTextarea => mkDraft (d_name prev) (d_rating prev) value
  end.

Definition handleInputChange (f : TextField) (value : jsstring) (st : State) : State :=
  let st1 := setNewReview (setField f value) st in
  if errorShown (formErrors st !! targetName f)
  then setFormErrors (fun prev => <[targetName f := ""]> prev) st1
  else st1.

Definition handleRatingChange (rating : Z) (st : State) : State :=
  setNewReview (fun prev => mkDraft (d_name prev) rating (d_comment prev)) st.

Definition handleFormToggle (st : State) : State :=
  let st1 := setShowForm negb st in
  if showForm st
  then setFormErrors (fun _ => ∅) (setNewReview (fun _ => emptyDraft) st1)
  else st1.

Definition handleCancelForm (st : State) : State :=
  setFormErrors (fun _ => ∅)
    (setNewReview (fun _ => emptyDraft) (setShowForm (fun _ => false) st)).

(** [a || b] on numbers: [a] unless it is zero. *)
Definition orNum (a b : Z) : Z := if a =? 0 then b else a.

(** ** StarRating *)

Module StarRating.

Definition stars : list Z := [1; 2; 3; 4; 5].

(** Whether the class [filled] is put on the star [star]. *)
Definition filled (hoveredRating rating star : Z) : bool :=
  star <=? orNum hoveredRating rating.

(** The five flags, in the order of the rendered stars. *)
Definition render (hoveredRating rating : Z) : list bool :=
  List.map (filled hoveredRating rating) stars.

Definition handleClick (interactive : bool)
    (onRatingChange : option (Z -> State -> State)) (value : Z) (st : State) : State :=
  match interactive, onRatingChange with
  | true, Some change =>
      setFormErrors (fun prev => <["rating" := ""]> prev) (change value st)
  | _, _ => st
  end.

Definition handleMouseEnter (interactive : bool) (value hoveredRating : Z) : Z :=
  if interactive then value else hoveredRating.

Definition handleMouseLeave (interactive : bool) (hoveredRating : Z) : Z :=
  if interactive then 0 else hoveredRating.

End StarRating.

(** ** The rendered tree: which handlers the user can reach *)

(** What the user can do on the page. *)
Inductive Action : Type :=
  | ClickAddReview                                (* button.add-review-btn *)
  | SubmitForm                                    (* form.review-form, onSubmit *)
  | ClickCancel                                   (* button.cancel-btn *)
  | ChangeInput (f : TextField) (value : jsstring)
  | SelectStar (inForm : bool) (star : Z)         (* click, Enter or Space on a star *)
  | ChangeSort (value : string)                   (* select.sort-select *)
  | ChangeFilter (value : Z).                     (* select.filter-select *)

Definition isStar (star : Z) : bool := existsb (Z.eqb star) StarRating.stars.

(** Whether the control of the action is in the tree rendered from [st] and
    not disabled.  The form is rendered under [showForm &&]; its two text
    controls and its two buttons carry [disabled={isSubmitting}], and a form
    whose submit button is disabled is not submitted.  The stars of the form
    carry no [disabled]. *)
Definition rendered (st : State) (a : Action) : bool :=
  match a with
  | ClickAddReview => true
  | SubmitForm => showForm st && negb (isSubmitting st)
  | ClickCancel => showForm st && negb (isSubmitting st)
  | ChangeInput _ _ => showForm st && negb (isSubmitting st)
  | SelectStar true star => showForm st && isStar star
  | SelectStar false star => isStar star
  | ChangeSort value => String.eqb value "date" || String.eqb value "rating"
  | ChangeFilter value => (0 <=? value) && (value <=? 5)
  end.

(** The handler bound to the control, run to its end or to its [await]. *)
Definition handler (a : Action) (st : State) : State * option Draft :=
  match a with
  | ClickAddReview => (handleFormToggle st, None)
  | SubmitForm => handleSubmit st
  | ClickCancel => (handleCancelForm st, None)
  | ChangeInput f value => (handleInputChange f value st, None)
  | SelectStar true star =>
      (StarRating.handleClick true (Some handleRatingChange) star st, None)
  | SelectStar false star => (StarRating.handleClick false None star st, None)
  | ChangeSort value => (setSortBy value st, None)
  | ChangeFilter value => (setFilterRating value st, None)
  end.

(** One user action: nothing happens on a control that is absent or disabled. *)
Definition dispatch (a : Action) (st : State) : State * option Draft :=
  if rendered st a then handler a st else (st, None).

(** The page: the component state and the suspended [handleSubmit] calls,
    oldest first (their timers all run for the same second). *)
Record World : Type := mkWorld {
  ui : State;
  timers : list Draft
}.

Inductive Event : Type :=
  | User (a : Action)
  | Timeout (clk : Clock).      (* the oldest timer fires *)

Definition step (w : World) (e : Event) : World :=
  match e with
  | User a =>
      let '(st, k) := dispatch a (ui w) in
      mkWorld st (timers w ++ option_list k)
  | Timeout clk =>
      match timers w with
      | [] => w
      | captured :: rest => mkWorld (handleSubmit_resume captured clk (ui w)) rest
      end
  end.

Definition run (w : World) (es : list Event) : World := fold_left step es w.

Definition initialWorld : World := mkWorld initialState [].

(** [addReview] of the store: a submission and its completion. *)
Definition addReview (clk : Clock) (st : State) : State * bool :=
  match handleSubmit st with
  | (st1, Some captured) => (handleSubmit_resume captured clk st1, true)
  | (st1, None) => (st1, false)
  end.

(** ** Sorting and filtering *)

(** [Array.prototype.sort(comparefn)]: a stable sort; [comparefn a b < 0]
    puts [a] first, [> 0] puts [b] first, [0] keeps the order of the array.
    For a consistent comparator every stable sort returns the same array;
    it is computed here by insertion from the right. *)
Section ArraySort.
Context {A : Type} (comparefn : A -> A -> Z).

Fixpoint sortInsert (x : A) (l : list A) : list A :=
  match l with
  | [] => [x]
  | y :: l' => if comparefn x y <=? 0 then x :: l else y :: sortInsert x l'
  end.

Fixpoint arraySort (l : list A) : list A :=
  match l with
  | [] => []
  | x :: l' => sortInsert x (arraySort l')
  end.
(** [a] may stand before [b] in the sorted array. *)
Definition before (a b : A) : Prop := comparefn a b <= 0.

End ArraySort.

(** The comparator given to [sort]. *)
Definition compareReviews (sortBy : string) (a b : Review) : Z :=
  if String.eqb sortBy "rating"
  then orNum (r_rating b - r_rating a) (dateValue b - dateValue a)
  else dateValue b - dateValue a.

(** The callback given to [filter]. *)
Definition keepReview (filterRating : Z) (review : Review) : bool :=
  (filterRating =? 0) || (r_rating review =? filterRating).

(** The elements of [reviews.filter(...).sort(...)]. *)
Definition filterThenSort (sortKey : string) (wanted : Z) (rs : list Review)
    : list Review :=
  arraySort (compareReviews sortKey) (List.filter (keepReview wanted) rs).

(** The elements of the array [sortedAndFilteredReviews] of a render. *)
Definition sortedAndFilteredReviews (st : State) : list Review :=
  filterThenSort (sortBy st) (filterRating st) (reviews st).

(** Arrays are objects: [filter] allocates a new array, [sort] sorts the
    array it is called on in place and returns it. *)
Module Arrays.

(** A reference to an array. *)
Abbreviation ref := nat.

Definition Array_filter (p : Review -> bool) (a : ref)
    (h : gmap nat (list Review)) : option (ref * gmap nat (list Review)) :=
  match h !! a with
  | Some xs => let a' := fresh (dom h) in Some (a', <[a' := List.filter p xs]> h)
  | None => None
  end.

Definition Array_sort (comparefn : Review -> Review -> Z) (a : ref)
    (h : gmap nat (list Review)) : option (ref * gmap nat (list Review)) :=
  match h !! a with
  | Some xs => Some (a, <[a := arraySort comparefn xs]> h)
  | None => None
  end.

(** [reviews.filter(...).sort(...)], with [reviews] the array at [a]. *)
Definition listReviews (sortKey : string) (filterRating : Z) (a : ref)
    (h : gmap nat (list Review)) : option (ref * gmap nat (list Review)) :=
  match Array_filter (keepReview filterRating) a h with
  | Some (a1, h1) => Array_sort (compareReviews sortKey) a1 h1
  | None => None
  end.

End Arrays.

(** ** Numbers and the average rating *)

(** The numbers of [averageRating] are binary64 values.  The ratings and
    their sums are integers below 2^53, on which binary64 addition is exact,
    so the sum is computed in [Z]; the division rounds. *)
Module Number.

(** The finite binary64 value [mant * 2^expo]. *)
Record float : Type := mkFloat {
  mant : Z;
  expo : Z
}.

(** The integer nearest to [a / b], ties to the even one ([0 <= a], [0 < b]). *)
Definition roundHalfEven (a b : Z) : Z :=
  let q := a / b in
  let r := a mod b in
  if 2 * r <? b then q
  else if b <? 2 * r then q + 1
  else if Z.even q then q else q + 1.

(** [p / c / 2^e] as a ratio of two integers. *)
Definition scaled (p c e : Z) : Z * Z :=
  if e <=? 0 then (p * 2 ^ (- e), c) else (p, c * 2 ^ e).

(** [p / c] for integers [0 < p, c < 2^53]: the quotient rounded to 53
    significant bits, to nearest, ties to even.  The exponent is chosen so
    that the scaled quotient lies in [2^52, 2^53). *)
Definition divPos (p c : Z) : float :=
  let e0 := Z.log2 p - Z.log2 c - 53 in
  let e :=
    if 2 ^ 53 <=? fst (scaled p c e0) / snd (scaled p c e0) then e0 + 1 else e0 in
  mkFloat (roundHalfEven (fst (scaled p c e)) (snd (scaled p c e))) e.

(** [s / c] for an integer [s] and an integer [0 < c]. *)
Definition div (s c : Z) : float :=
  if s =? 0 then mkFloat 0 0
  else if 0 <? s then divPos s c
  else mkFloat (- mant (divPos (- s) c)) (expo (divPos (- s) c)).

(** For [0 <= x < 10^21]: the integer [n] for which [n / 10 - x] is as close
    to zero as possible, the larger one if there are two. *)
Definition tenths (x : float) : Z :=
  if 0 <=? expo x then 10 * mant x * 2 ^ expo x
  else (20 * mant x + 2 ^ (- expo x)) / 2 ^ (1 - expo x).

(** The digits [toFixed(1)] writes for [n] tenths. *)
Definition fixed1 (n : Z) : string :=
  pretty (n / 10) +:+ "." +:+ pretty (n mod 10).

(** [x.toFixed(1)] *)
Definition toFixed1 (x : float) : string :=
  (if mant x <? 0 then "-" else "")
  +:+ fixed1 (tenths (mkFloat (Z.abs (mant x)) (expo x))).

(** The same quotient by the binary64 division of the standard library. *)
Definition divRef (p c : Z) : spec_float :=
  SFdiv 53 1024 (binary_normalize 53 1024 p 0 false)
                (binary_normalize 53 1024 c 0 false).

(** Whether [divPos p c] and [divRef p c] are the same number. *)
Definition agrees (p c : Z) : bool :=
  match divRef p c with
  | S754_finite false m e =>
      let x := divPos p c in
      if e <=? expo x then Z.pos m =? mant x * 2 ^ (expo x - e)
      else Z.pos m * 2 ^ (e - expo x) =? mant x
  | _ => false
  end.

End Number.

(** What [averageRating] holds: a string from [toFixed], or the number 0. *)
Inductive JsValue : Type :=
  | JsString (s : string)
  | JsNumber (n : Z).

(** [reviews.reduce((sum, review) => sum + review.rating, 0)] *)
Definition sumRatings (reviews : list Review) : Z :=
  fold_left (fun sum review => sum + r_rating review) reviews 0.

Definition averageRating (reviews : list Review) : JsValue :=
  if 0 <? Z.of_nat (length reviews)
  then JsString (Number.toFixed1
                   (Number.div (sumRatings reviews) (Z.of_nat (length reviews))))
  else JsNumber 0.

(** ** The rest of the component *)

(** The control to which [handleSubmit] moves the focus when validation
    fails.  [formErrors] is the object of the render in which the form was
    submitted, that is, the errors shown before this validation ran;
    [nameInput] and [commentTextarea] tell whether the two refs are set. *)
Definition handleSubmit_focus (nameInput commentTextarea : bool) (st : State)
    : option TextField :=
  if negb (snd (validateForm st)) then
    if errorShown (formErrors st !! "name") && nameInput then Some NameInput
    else if errorShown (formErrors st !! "comment") && commentTextarea
         then Some CommentTextarea
         else None
  else None.

(** [{newReview.comment.length} characters] *)
Definition characterCount (st : State) : Z := jslength (d_comment (newReview st)).

(** [sortedAndFilteredReviews.length === 0]: the list is replaced by
    "No reviews match the selected filters." *)
Definition noReviewsMatch (st : State) : bool :=
  Z.of_nat (length (sortedAndFilteredReviews st)) =? 0.

(** Whether an event is the firing of a timer. *)
Definition isTimeout (e : Event) : bool :=
  match e with Timeout _ => true | User _ => false end.

(** ** What the properties speak of *)

(** A draft that passes every rule of [validateForm]. *)
Definition validDraft (d : Draft) : Prop :=
  trim (d_name d) ≠ [] ∧ d_rating d ≠ 0 ∧ 10 ≤ jslength (trim (d_comment d)).

(** [{name: "Alice", rating: 4, comment: "Great product overall"}] *)
Definition aliceDraft : Draft :=
  mkDraft (lit "Alice") 4 (lit "Great product overall").

(** A closed form holds the empty draft and no error. *)
Definition closedFormClean (st : State) : Prop :=
  showForm st = false → newReview st = emptyDraft ∧ formErrors st = ∅.

(** A submission is in flight exactly when [isSubmitting] is set, and there
    is never more than one. *)
Definition oneInFlight (w : World) : Prop :=
  length (timers w) = if isSubmitting (ui w) then 1%nat else 0%nat.

(** What every committed review satisfies. *)
Definition goodReview (r : Review) : Prop :=
  1 ≤ r_rating r ≤ 5
  ∧ 10 ≤ jslength (trim (r_comment r))
  ∧ trim (r_name r) ≠ [].

(** The rating of a draft is 0 (unset) or one of the five stars. *)
Definition draftInRange (d : Draft) : Prop := 0 ≤ d_rating d ≤ 5.

(** The draft is a draft, and every suspended submission holds a draft that
    passed validation. *)
Definition wellTyped (w : World) : Prop :=
  draftInRange (newReview (ui w))
  ∧ Forall (fun d => validDraft d ∧ draftInRange d) (timers w).

(** [goodReview], as a test. *)
Definition goodReviewb (r : Review) : bool :=
  (1 <=? r_rating r) && (r_rating r <=? 5)
  && (10 <=? jslength (trim (r_comment r))) && truthy (trim (r_name r)).

(** Descending by date. *)
Definition newerFirst (x y : Review) : Prop := r_date y ≤ r_date x.

(** Descending by rating, ties descending by date. *)
Definition betterFirst (x y : Review) : Prop :=
  r_rating y < r_rating x ∨ (r_rating x = r_rating y ∧ r_date y ≤ r_date x).

(** * Properties *)

(** ** Dates *)

Example days_from_civil_examples :
  days_from_civil 1970 1 1 = 0
  ∧ days_from_civil 2024 1 15 = 19737
  ∧ days_from_civil 2024 1 10 = 19732
  ∧ isoDay 1762041600000 = days_from_civil 2025 11 2.
Proof. vm_compute. done. Qed.

(** ** Validation *)

Lemma truthy_false (s : jsstring) : truthy s = false ↔ s = [].
Proof. destruct s; simpl; split; congruence. Qed.

Lemma truthy_true (s : jsstring) : truthy s = true ↔ s ≠ [].
Proof. destruct s; simpl; split; congruence. Qed.

Lemma jslength_nil (s : jsstring) : jslength s = 0 ↔ s = [].
Proof.
  unfold jslength. destruct s; simpl; split; try done; lia.
Qed.

Lemma jslength_nonneg (s : jsstring) : 0 ≤ jslength s.
Proof. unfold jslength. lia. Qed.

Lemma errors_name (d : Draft) :
  validationErrors d !! "name" =
    if decide (trim (d_name d) = []) then Some msg_name_required else None.
Proof.
  unfold validationErrors.
  destruct (truthy (trim (d_name d))) eqn:Hn;
    [apply truthy_true in Hn | apply truthy_false in Hn];
    destruct (d_rating d =? 0);
    destruct (truthy (trim (d_comment d)));
    destruct (jslength (trim (d_comment d)) <? 10);
    simpl; case_decide; try done; by simplify_map_eq.
Qed.

Lemma errors_rating (d : Draft) :
  validationErrors d !! "rating" =
    if decide (d_rating d = 0) then Some msg_rating_missing else None.
Proof.
  unfold validationErrors.
  destruct (Z.eqb_spec (d_rating d) 0);
    destruct (truthy (trim (d_name d)));
    destruct (truthy (trim (d_comment d)));
    destruct (jslength (trim (d_comment d)) <? 10);
    simpl; case_decide; try done; by simplify_map_eq.
Qed.

Lemma errors_comment (d : Draft) :
  validationErrors d !! "comment" =
    if decide (trim (d_comment d) = []) then Some msg_comment_required
    else if decide (jslength (trim (d_comment d)) < 10) then Some msg_comment_short
    else None.
Proof.
  unfold validationErrors.
  destruct (truthy (trim (d_comment d))) eqn:Hc;
    [apply truthy_true in Hc | apply truthy_false in Hc];
    destruct (Z.ltb_spec (jslength (trim (d_comment d))) 10);
    destruct (truthy (trim (d_name d)));
    destruct (d_rating d =? 0);
    simpl; repeat case_decide; try done; try lia; by simplify_map_eq.
Qed.

Lemma errors_other (d : Draft) (k : string) :
  k ≠ "name" → k ≠ "rating" → k ≠ "comment" → validationErrors d !! k = None.
Proof.
  intros ? ? ?. unfold validationErrors.
  destruct (truthy (trim (d_name d)));
    destruct (d_rating d =? 0);
    destruct (truthy (trim (d_comment d)));
    destruct (jslength (trim (d_comment d)) <? 10);
    simpl; by simplify_map_eq.
Qed.

Lemma noKeys_empty (m : gmap string string) : noKeys m = true ↔ m = ∅.
Proof.
  unfold noKeys. rewrite Nat.eqb_eq. apply map_size_empty_iff.
Qed.

Lemma errors_empty_iff (d : Draft) : validationErrors d = ∅ ↔ validDraft d.
Proof.
  unfold validDraft. split.
  - intros He.
    pose proof (errors_name d) as Hn. pose proof (errors_rating d) as Hr.
    pose proof (errors_comment d) as Hc.
    rewrite He, lookup_empty in Hn, Hr, Hc.
    repeat case_decide; try done. split_and!; [done | done | lia].
  - intros (Hn & Hr & Hc). apply map_eq. intros k. rewrite lookup_empty.
    destruct (decide (k = "name")) as [-> | ?].
    { rewrite errors_name. by case_decide. }
    destruct (decide (k = "rating")) as [-> | ?].
    { rewrite errors_rating. by case_decide. }
    destruct (decide (k = "comment")) as [-> | ?].
    { rewrite errors_comment. case_decide as Ht.
      - rewrite Ht in Hc. unfold jslength in Hc. simpl in Hc. lia.
      - case_decide; [lia | done]. }
    by apply errors_other.
Qed.

Lemma noKeys_valid (d : Draft) : noKeys (validationErrors d) = true ↔ validDraft d.
Proof. rewrite noKeys_empty. apply errors_empty_iff. Qed.

Lemma not_valid_iff (d : Draft) :
  ¬ validDraft d ↔
  trim (d_name d) = [] ∨ d_rating d = 0 ∨ jslength (trim (d_comment d)) < 10.
Proof.
  unfold validDraft. split.
  - intros Hn.
    destruct (decide (trim (d_name d) = [])); [by left |].
    destruct (decide (d_rating d = 0)); [by right; left |].
    destruct (decide (jslength (trim (d_comment d)) < 10)); [by right; right |].
    exfalso. apply Hn. split_and!; [done | done | lia].
  - intros [H | [H | H]] (? & ? & ?); [done | done | lia].
Qed.

(** C1. For every draft, [validateForm] stores exactly the error object of
    three independent rules and reports success iff none is violated:
    [name] maps to 'Name is required' (EmptyField) iff the trimmed name is
    empty; [rating] maps to 'Please select a rating' (MissingRating) iff the
    rating is 0; [comment] maps to 'Review comment is required' (EmptyField)
    iff the trimmed comment is empty, and otherwise to 'Review must be at
    least 10 characters long' (TooShort) iff its trimmed length is below 10;
    there is no other key.  An empty trimmed comment is therefore never
    reported as too short. *)
Theorem validateForm_rules (st : State) :
  let d := newReview st in
  let errors := formErrors (fst (validateForm st)) in
  errors = validationErrors d
  ∧ errors !! "name" =
      (if decide (trim (d_name d) = []) then Some msg_name_required else None)
  ∧ errors !! "rating" =
      (if decide (d_rating d = 0) then Some msg_rating_missing else None)
  ∧ errors !! "comment" =
      (if decide (trim (d_comment d) = []) then Some msg_comment_required
       else if decide (jslength (trim (d_comment d)) < 10) then Some msg_comment_short
       else None)
  ∧ (∀ k, k ≠ "name" → k ≠ "rating" → k ≠ "comment" → errors !! k = None)
  ∧ (jslength (trim (d_comment d)) = 0 →
       errors !! "comment" = Some msg_comment_required
       ∧ errors !! "comment" ≠ Some msg_comment_short)
  ∧ (snd (validateForm st) = true ↔ validDraft d).
Proof.
  simpl. split_and!.
  - done.
  - apply errors_name.
  - apply errors_rating.
  - apply errors_comment.
  - apply errors_other.
  - intros Hz. apply jslength_nil in Hz. rewrite errors_comment.
    case_decide; [| done]. split; [done | discriminate].
  - apply noKeys_valid.
Qed.

(** ** Submitting a draft *)

Lemma aliceDraft_valid : validDraft aliceDraft.
Proof. unfold validDraft. vm_compute. split_and!; congruence. Qed.

Lemma handleSubmit_valid (st : State) :
  validDraft (newReview st) →
  handleSubmit st =
    (setIsSubmitting true (setFormErrors (fun _ => ∅) st), Some (newReview st)).
Proof.
  intros Hv. unfold handleSubmit, validateForm.
  pose proof (proj2 (noKeys_valid _) Hv) as Hk. rewrite Hk. simpl.
  by rewrite (proj2 (errors_empty_iff _) Hv).
Qed.

Lemma handleSubmit_invalid (st : State) :
  ¬ validDraft (newReview st) →
  handleSubmit st =
    (setFormErrors (fun _ => validationErrors (newReview st)) st, None).
Proof.
  intros Hv. unfold handleSubmit, validateForm.
  destruct (noKeys (validationErrors (newReview st))) eqn:Hk; [| done].
  by apply noKeys_valid in Hk.
Qed.

(** C2, as the code has it.  For every valid draft submitted to a store,
    [addReview] builds a Review whose id is the reading of the clock in
    milliseconds at the time of the commit and whose date is the UTC calendar
    day of the clock, puts it at the head of the review list, whose length
    grows by exactly 1, and leaves the stored reviews behind it unchanged.
    The id is fresh and greater than every stored id whenever the clock
    reading is greater than every stored id.  Submitting Alice's draft to an
    empty store gives a list of length 1 whose only Review has rating 4 and
    her comment. *)
Theorem addReview_valid (clk : Clock) (st : State) :
  validDraft (newReview st) →
  let d := newReview st in
  let review :=
    mkReview (now_id clk) (d_name d) (d_rating d) (d_comment d)
             (isoDay (now_date clk)) in
  let st' := fst (addReview clk st) in
  snd (addReview clk st) = true
  ∧ reviews st' = review :: reviews st
  ∧ length (reviews st') = S (length (reviews st))
  ∧ (Forall (fun r => r_id r < now_id clk) (reviews st) →
       (r_id review ∉ List.map r_id (reviews st))
       ∧ Forall (fun r => r_id r < r_id review) (reviews st))
  ∧ (reviews st = [] → d = aliceDraft →
       length (reviews st') = 1%nat
       ∧ ∃ r, reviews st' = [r] ∧ r_rating r = 4
              ∧ r_comment r = lit "Great product overall").
Proof.
  intros Hv. simpl. unfold addReview. rewrite (handleSubmit_valid _ Hv). simpl.
  split_and!; try done.
  - intros Hlt. split; [| done].
    intros Hin. apply list_elem_of_fmap in Hin as (r & Hid & Hr).
    rewrite Forall_forall in Hlt. specialize (Hlt r Hr). simpl in Hid. lia.
  - intros -> ->. split; [done |]. eexists. split_and!; done.
Qed.

Lemma addReview_valid_witness :
  let st := mkState [] aliceDraft true false ∅ "date" 0 0 in
  let st' := fst (addReview (mkClock 1762041600000 1762041600000) st) in
  length (reviews st') = 1%nat
  ∧ ∃ r, reviews st' = [r] ∧ r_rating r = 4
         ∧ r_comment r = lit "Great product overall".
Proof.
  intros st st'.
  apply (addReview_valid (mkClock 1762041600000 1762041600000) st aliceDraft_valid);
    reflexivity.
Defined.

(** C2, as stated, fails: the id is the clock reading, and two commits made
    at the same reading get the same id.  The page is run from its initial
    state: Alice's draft is typed and submitted, and typed again; the second
    commit is made at the reading of the first. *)
Lemma addReview_id_not_fresh :
  let clk := mkClock 1762041600000 1762041600000 in
  let typeAlice :=
    [User ClickAddReview;
     User (ChangeInput NameInput (lit "Alice"));
     User (SelectStar true 4);
     User (ChangeInput CommentTextarea (lit "Great product overall"))] in
  let st := ui (run initialWorld
                  (typeAlice ++ [User SubmitForm; Timeout clk] ++ typeAlice)) in
  newReview st = aliceDraft
  ∧ validDraft (newReview st)
  ∧ snd (addReview clk st) = true
  ∧ List.map r_id (reviews st) = [1762041600000; 1; 2]
  ∧ List.map r_id (reviews (fst (addReview clk st)))
      = [1762041600000; 1762041600000; 1; 2]
  ∧ ¬ NoDup (List.map r_id (reviews (fst (addReview clk st))))
  ∧ reviews (ui (run initialWorld
                  (typeAlice ++ [User SubmitForm; Timeout clk]
                   ++ typeAlice ++ [User SubmitForm; Timeout clk])))
      = reviews (fst (addReview clk st)).
Proof.
  split; [vm_compute; reflexivity |].
  split; [vm_compute; split_and!; congruence |].
  split; [vm_compute; reflexivity |].
  split; [vm_compute; reflexivity |].
  split; [vm_compute; reflexivity |].
  split; [| vm_compute; reflexivity].
  vm_compute. intros Hnd. apply NoDup_cons_1_1 in Hnd. apply Hnd. left.
Qed.

(** C3. A draft that fails validation (empty trimmed name, or rating 0, or
    trimmed comment shorter than 10) is not committed: [handleSubmit]
    returns without suspending, the error object of the draft is stored in
    [formErrors] and is not empty, with the error of each violated rule, and
    the review list is the same list as before; nothing is left to run
    later. *)
Theorem addReview_invalid (clk : Clock) (st : State) :
  trim (d_name (newReview st)) = [] ∨ d_rating (newReview st) = 0
    ∨ jslength (trim (d_comment (newReview st))) < 10 →
  let d := newReview st in
  let st' := fst (addReview clk st) in
  handleSubmit st = (st', None)
  ∧ snd (addReview clk st) = false
  ∧ st' = setFormErrors (fun _ => validationErrors d) st
  ∧ reviews st' = reviews st
  ∧ formErrors st' = validationErrors d
  ∧ formErrors st' ≠ ∅
  ∧ (trim (d_name d) = [] → formErrors st' !! "name" = Some msg_name_required)
  ∧ (d_rating d = 0 → formErrors st' !! "rating" = Some msg_rating_missing)
  ∧ (1 ≤ jslength (trim (d_comment d)) < 10 →
       formErrors st' !! "comment" = Some msg_comment_short)
  ∧ (∀ w, ui w = st →
       reviews (ui (step w (User SubmitForm))) = reviews st
       ∧ timers (step w (User SubmitForm)) = timers w).
Proof.
  intros Hbad. apply not_valid_iff in Hbad. simpl.
  unfold addReview. rewrite (handleSubmit_invalid _ Hbad). simpl.
  split_and!; try done.
  - rewrite errors_empty_iff. done.
  - intros Hn. rewrite errors_name. by case_decide.
  - intros Hr. rewrite errors_rating. by case_decide.
  - intros Hc. rewrite errors_comment. case_decide as Ht.
    + apply jslength_nil in Ht. lia.
    + case_decide; [done | lia].
  - intros w <-. unfold step, dispatch.
    destruct (rendered (ui w) SubmitForm) eqn:Hr.
    + simpl. rewrite (handleSubmit_invalid _ Hbad). simpl. by rewrite app_nil_r.
    + simpl. by rewrite app_nil_r.
Qed.

Lemma addReview_invalid_witness :
  let clk := mkClock 1762041600000 1762041600000 in
  let st := mkState initialReviews emptyDraft true false ∅ "date" 0 2 in
  let st' := fst (addReview clk st) in
  handleSubmit st = (st', None)
  ∧ reviews st' = initialReviews
  ∧ formErrors st' !! "name" = Some msg_name_required
  ∧ formErrors st' !! "rating" = Some msg_rating_missing.
Proof.
  intros clk st st'.
  destruct (addReview_invalid clk st) as (H1 & _ & _ & H4 & _ & _ & H7 & H8 & _).
  { left. reflexivity. }
  split; [exact H1 |]. split; [exact H4 |].
  split; [apply H7; reflexivity | apply H8; reflexivity].
Defined.

(** ** The star widget *)

Lemma leb_bool_decide (a b : Z) : (a <=? b) = bool_decide (a ≤ b).
Proof.
  destruct (Z.leb_spec a b); symmetry.
  - by apply bool_decide_eq_true_2.
  - apply bool_decide_eq_false_2. lia.
Qed.

(** C6. For every rating value and every hover value, the widget shows five
    flags, one per star 1..5 in order, and star [i] is filled iff
    [i <= (hoveredRating || rating)]: iff [i] is at most the hover value when
    a star is hovered (the hover value is not 0) and at most the rating
    otherwise.  The flags depend on nothing else. *)
Theorem StarRating_filled (hoveredRating rating : Z) :
  let shown := if decide (hoveredRating = 0) then rating else hoveredRating in
  shown = orNum hoveredRating rating
  ∧ length (StarRating.render hoveredRating rating) = 5%nat
  ∧ StarRating.render hoveredRating rating =
      [bool_decide (1 ≤ shown); bool_decide (2 ≤ shown); bool_decide (3 ≤ shown);
       bool_decide (4 ≤ shown); bool_decide (5 ≤ shown)]
  ∧ (∀ i : nat, (i < 5)%nat →
       StarRating.render hoveredRating rating !! i =
         Some (bool_decide (Z.of_nat i + 1 ≤ shown))).
Proof.
  simpl.
  assert (Hs : (if decide (hoveredRating = 0) then rating else hoveredRating)
               = orNum hoveredRating rating).
  { unfold orNum. case_decide as Hh.
    - subst. done.
    - by destruct (Z.eqb_spec hoveredRating 0). }
  rewrite Hs.
  assert (Hr : StarRating.render hoveredRating rating =
      [bool_decide (1 ≤ orNum hoveredRating rating);
       bool_decide (2 ≤ orNum hoveredRating rating);
       bool_decide (3 ≤ orNum hoveredRating rating);
       bool_decide (4 ≤ orNum hoveredRating rating);
       bool_decide (5 ≤ orNum hoveredRating rating)]).
  { unfold StarRating.render, StarRating.stars, StarRating.filled. simpl.
    by rewrite !leb_bool_decide. }
  split_and!; [done | done | done |].
  intros i Hi. rewrite Hr.
  destruct i as [| [| [| [| [| i]]]]]; simpl; try done. lia.
Qed.

(** ** Clearing errors *)

Lemma errorShown_empty_string : errorShown (Some "") = false.
Proof. reflexivity. Qed.

Lemma handleInputChange_errors (f : TextField) (value : jsstring) (st : State) :
  formErrors (handleInputChange f value st) =
    if errorShown (formErrors st !! targetName f)
    then <[targetName f := ""]> (formErrors st) else formErrors st.
Proof.
  unfold handleInputChange.
  by destruct (errorShown (formErrors st !! targetName f)).
Qed.

(** C7. Clearing is per field.  Selecting a star of the form (whether or not
    the MissingRating error is shown) sets the [rating] entry of the error
    object to the empty string, which shows no error, and leaves every other
    entry as it was; editing a text control does the same to the entry of
    that control only (it is left alone when it shows no error). *)
Theorem errors_cleared_per_field (st : State) :
  (∀ star : Z,
     let st' := StarRating.handleClick true (Some handleRatingChange) star st in
     fst (handler (SelectStar true star) st) = st'
     ∧ formErrors st' = <["rating" := ""]> (formErrors st)
     ∧ errorShown (formErrors st' !! "rating") = false
     ∧ ∀ k : string, k ≠ "rating" → formErrors st' !! k = formErrors st !! k)
  ∧ (∀ (f : TextField) (value : jsstring),
     let st' := handleInputChange f value st in
     fst (handler (ChangeInput f value) st) = st'
     ∧ errorShown (formErrors st' !! targetName f) = false
     ∧ ∀ k : string, k ≠ targetName f → formErrors st' !! k = formErrors st !! k).
Proof.
  split.
  - intros star. simpl. split_and!; try done.
    + by rewrite lookup_insert_eq.
    + intros k Hk. by rewrite lookup_insert_ne.
  - intros f value. simpl. rewrite handleInputChange_errors. split_and!; try done.
    + destruct (errorShown (formErrors st !! targetName f)) eqn:He; [| done].
      by rewrite lookup_insert_eq.
    + intros k Hk.
      destruct (errorShown (formErrors st !! targetName f)); [| done].
      by rewrite lookup_insert_ne.
Qed.

(** ** Invariants of the page *)

Lemma handleSubmit_frame (st : State) :
  let st' := fst (handleSubmit st) in
  reviews st' = reviews st ∧ newReview st' = newReview st
  ∧ showForm st' = showForm st ∧ reviewCount st' = reviewCount st.
Proof.
  unfold handleSubmit, validateForm.
  by destruct (noKeys (validationErrors (newReview st))).
Qed.

Lemma handleSubmit_cases (st : State) :
  (validDraft (newReview st)
   ∧ handleSubmit st =
       (setIsSubmitting true (setFormErrors (fun _ => ∅) st), Some (newReview st)))
  ∨ (¬ validDraft (newReview st)
     ∧ handleSubmit st =
         (setFormErrors (fun _ => validationErrors (newReview st)) st, None)).
Proof.
  destruct (noKeys (validationErrors (newReview st))) eqn:Hk.
  - apply noKeys_valid in Hk. left. split; [done | by apply handleSubmit_valid].
  - right.
    assert (¬ validDraft (newReview st)) as Hn.
    { intros Hv. apply noKeys_valid in Hv. congruence. }
    split; [done | by apply handleSubmit_invalid].
Qed.

(** No user action changes the review list. *)
Lemma dispatch_reviews (a : Action) (st : State) :
  reviews (fst (dispatch a st)) = reviews st.
Proof.
  unfold dispatch. destruct (rendered st a); [| done].
  destruct a as [| | | f v | [|] star | |]; simpl; try done.
  - unfold handleFormToggle. by destruct (showForm st).
  - apply handleSubmit_frame.
  - unfold handleInputChange. by destruct (errorShown _).
Qed.

(** No user action clears [isSubmitting]. *)
Lemma dispatch_isSubmitting (a : Action) (st : State) :
  isSubmitting st = true → isSubmitting (fst (dispatch a st)) = true.
Proof.
  intros Hs. unfold dispatch. destruct (rendered st a); [| done].
  destruct a as [| | | f v | [|] star | |]; simpl; try done.
  - unfold handleFormToggle. by destruct (showForm st).
  - destruct (handleSubmit_cases st) as [[_ ->] | [_ ->]]; done.
  - unfold handleInputChange. by destruct (errorShown _).
Qed.

(** *** The closed form is clean *)

Lemma dispatch_closedFormClean (a : Action) (st : State) :
  closedFormClean st → closedFormClean (fst (dispatch a st)).
Proof.
  unfold closedFormClean, dispatch. intros Hc.
  destruct (rendered st a) eqn:Hr; [| done].
  destruct a as [| | | f v | [|] star | |]; simpl in *; try done.
  - unfold handleFormToggle.
    destruct (showForm st) eqn:Hs; simpl; rewrite ?Hs; simpl; done.
  - apply andb_true_iff in Hr as [Hshow _].
    destruct (handleSubmit_frame st) as (_ & _ & -> & _). congruence.
  - apply andb_true_iff in Hr as [Hshow _].
    unfold handleInputChange. destruct (errorShown _); simpl; congruence.
  - apply andb_true_iff in Hr as [Hshow _]. congruence.
Qed.

Lemma step_closedFormClean (w : World) (e : Event) :
  closedFormClean (ui w) → closedFormClean (ui (step w e)).
Proof.
  intros Hc. destruct e as [a | clk]; simpl.
  - pose proof (dispatch_closedFormClean a _ Hc) as Hd.
    by destruct (dispatch a (ui w)).
  - destruct (timers w); [done |]. by simpl.
Qed.

Lemma run_closedFormClean (es : list Event) (w : World) :
  closedFormClean (ui w) → closedFormClean (ui (run w es)).
Proof.
  revert w. induction es as [| e es IH]; intros w Hc; [done |].
  simpl. apply IH. by apply step_closedFormClean.
Qed.

(** C10. Whenever the form is closed, the draft is the empty draft and the
    error object is empty.  The initial state is so; each way of closing the
    form (the cancel button, the toggle button while the form is open, the
    end of a submission) resets both; every event of the page keeps the
    property; hence a form that is opened shows an empty draft and no
    error. *)
Theorem closed_form_is_clean :
  closedFormClean initialState
  ∧ (∀ st, let st' := handleCancelForm st in
       showForm st' = false ∧ newReview st' = emptyDraft ∧ formErrors st' = ∅)
  ∧ (∀ st, showForm st = true → let st' := handleFormToggle st in
       showForm st' = false ∧ newReview st' = emptyDraft ∧ formErrors st' = ∅)
  ∧ (∀ captured clk st, let st' := handleSubmit_resume captured clk st in
       showForm st' = false ∧ newReview st' = emptyDraft ∧ formErrors st' = ∅)
  ∧ (∀ w e, closedFormClean (ui w) → closedFormClean (ui (step w e)))
  ∧ (∀ es, closedFormClean (ui (run initialWorld es)))
  ∧ (∀ es, let st := ui (run initialWorld es) in
       showForm st = false →
       let st' := fst (dispatch ClickAddReview st) in
       showForm st' = true ∧ newReview st' = emptyDraft ∧ formErrors st' = ∅).
Proof.
  split_and!.
  - done.
  - done.
  - intros st Hs. unfold handleFormToggle. rewrite Hs. simpl. rewrite Hs. done.
  - done.
  - apply step_closedFormClean.
  - intros es. by apply run_closedFormClean.
  - intros es st Hclosed. simpl.
    destruct (run_closedFormClean es initialWorld) as [Hd He];
      [by intros _ | exact Hclosed |].
    fold st in Hd, He. unfold handleFormToggle. rewrite Hclosed. simpl.
    rewrite Hclosed. done.
Qed.

(** *** One submission at a time *)

Lemma dispatch_SubmitForm_busy (st : State) :
  isSubmitting st = true → dispatch SubmitForm st = (st, None).
Proof.
  intros Hs. unfold dispatch. simpl. rewrite Hs.
  by rewrite andb_false_r.
Qed.

Lemma dispatch_suspends_only_idle (a : Action) (st st' : State) (d : Draft) :
  dispatch a st = (st', Some d) →
  a = SubmitForm ∧ isSubmitting st = false ∧ isSubmitting st' = true
  ∧ d = newReview st ∧ validDraft d.
Proof.
  unfold dispatch. destruct (rendered st a) eqn:Hr; [| done].
  destruct a as [| | | f v | [|] star | |]; simpl in *; try done.
  apply andb_true_iff in Hr as [_ Hidle]. apply negb_true_iff in Hidle.
  destruct (handleSubmit_cases st) as [[Hv ->] | [_ ->]]; [| done].
  intros [= <- <-]. done.
Qed.

Lemma dispatch_no_suspension (a : Action) (st st' : State) :
  dispatch a st = (st', None) → isSubmitting st' = isSubmitting st.
Proof.
  unfold dispatch. destruct (rendered st a) eqn:Hr; [| by intros [= <-]].
  destruct a as [| | | f v | [|] star | |]; simpl in *; try by intros [= <-].
  - intros [= <-]. unfold handleFormToggle. by destruct (showForm st).
  - destruct (handleSubmit_cases st) as [[_ ->] | [_ ->]]; [done |].
    by intros [= <-].
  - intros [= <-]. unfold handleInputChange. by destruct (errorShown _).
Qed.

Lemma step_oneInFlight (w : World) (e : Event) :
  oneInFlight w → oneInFlight (step w e).
Proof.
  unfold oneInFlight. intros Hw. destruct e as [a | clk]; simpl.
  - destruct (dispatch a (ui w)) as [st' [d |]] eqn:Hd; simpl.
    + apply dispatch_suspends_only_idle in Hd as (_ & Hidle & Hbusy & _).
      rewrite Hidle in Hw. rewrite Hbusy, length_app, Hw. reflexivity.
    + apply dispatch_no_suspension in Hd. by rewrite Hd, app_nil_r.
  - destruct (timers w) as [| captured rest] eqn:Ht; [by rewrite Ht |].
    simpl in *. destruct (isSubmitting (ui w)); lia.
Qed.

Lemma run_oneInFlight (es : list Event) (w : World) :
  oneInFlight w → oneInFlight (run w es).
Proof.
  revert w. induction es as [| e es IH]; intros w Hw; [done |].
  simpl. apply IH. by apply step_oneInFlight.
Qed.

(** C9. While a submission is in flight no other one starts.  The submit
    control is disabled while [isSubmitting] is set, so a submit action
    arriving then runs no validation, suspends nothing and adds no review;
    [handleSubmit] sets the flag before it suspends, and only when validation
    passed; no user action clears the flag, the end of the submission does;
    so in every state of the page at most one commit is pending, and one is
    pending exactly when the flag is set. *)
Theorem one_submission_at_a_time :
  (∀ st, isSubmitting st = true → dispatch SubmitForm st = (st, None))
  ∧ (∀ w, isSubmitting (ui w) = true →
       ui (step w (User SubmitForm)) = ui w
       ∧ timers (step w (User SubmitForm)) = timers w)
  ∧ (∀ a st st' d, dispatch a st = (st', Some d) →
       a = SubmitForm ∧ isSubmitting st = false ∧ isSubmitting st' = true
       ∧ d = newReview st ∧ validDraft d)
  ∧ (∀ a st, isSubmitting st = true →
       isSubmitting (fst (dispatch a st)) = true
       ∧ reviews (fst (dispatch a st)) = reviews st)
  ∧ (∀ captured clk st, isSubmitting (handleSubmit_resume captured clk st) = false)
  ∧ (∀ w e, oneInFlight w → oneInFlight (step w e))
  ∧ (∀ es, oneInFlight (run initialWorld es)
           ∧ (length (timers (run initialWorld es)) ≤ 1)%nat).
Proof.
  split_and!.
  - apply dispatch_SubmitForm_busy.
  - intros w Hs. simpl. rewrite (dispatch_SubmitForm_busy _ Hs). simpl.
    by rewrite app_nil_r.
  - apply dispatch_suspends_only_idle.
  - intros a st Hs. split; [by apply dispatch_isSubmitting | apply dispatch_reviews].
  - done.
  - apply step_oneInFlight.
  - intros es.
    assert (oneInFlight (run initialWorld es)) as Hone
      by (by apply run_oneInFlight).
    split; [done |]. unfold oneInFlight in Hone. rewrite Hone.
    destruct (isSubmitting _); lia.
Qed.

(** *** Committed reviews *)

Lemma isStar_range (star : Z) : isStar star = true → 1 ≤ star ≤ 5.
Proof.
  unfold isStar, StarRating.stars. simpl.
  rewrite !orb_true_iff, !Z.eqb_eq. lia.
Qed.

Lemma dispatch_draftInRange (a : Action) (st : State) :
  draftInRange (newReview st) → draftInRange (newReview (fst (dispatch a st))).
Proof.
  unfold dispatch. intros Hd. destruct (rendered st a) eqn:Hr; [| done].
  destruct a as [| | | f v | [|] star | |]; simpl in *; try done.
  - unfold handleFormToggle. destruct (showForm st); simpl; [| done].
    unfold draftInRange. simpl. lia.
  - by destruct (handleSubmit_frame st) as (_ & -> & _).
  - unfold handleInputChange. destruct (errorShown _); destruct f; simpl; done.
  - apply andb_true_iff in Hr as [_ Hstar]. apply isStar_range in Hstar.
    unfold draftInRange. simpl. lia.
Qed.

Lemma step_wellTyped (w : World) (e : Event) :
  wellTyped w → wellTyped (step w e).
Proof.
  intros [Hd Ht]. destruct e as [a | clk]; simpl.
  - pose proof (dispatch_draftInRange a _ Hd) as Hd'.
    destruct (dispatch a (ui w)) as [st' [d |]] eqn:Hdis; simpl in *.
    + apply dispatch_suspends_only_idle in Hdis as (_ & _ & _ & -> & Hv).
      split; [done |]. apply Forall_app. split; [done |].
      apply Forall_singleton. done.
    + split; [done |]. by rewrite app_nil_r.
  - destruct (timers w) as [| captured rest] eqn:Hq;
      [split; [done | by rewrite Hq] |].
    split.
    + unfold draftInRange. simpl. lia.
    + by apply Forall_cons_1 in Ht as [_ Ht].
Qed.

Lemma step_goodReviews (w : World) (e : Event) :
  wellTyped w → Forall goodReview (reviews (ui w)) →
  Forall goodReview (reviews (ui (step w e))).
Proof.
  intros [Hd Ht] Hg. destruct e as [a | clk]; simpl.
  - pose proof (dispatch_reviews a (ui w)) as Hr.
    destruct (dispatch a (ui w)) as [st' k]. simpl in *. by rewrite Hr.
  - destruct (timers w) as [| captured rest] eqn:Hq; [done |].
    apply Forall_cons_1 in Ht as [[(Hn & Hr & Hc) Hrange] _].
    simpl. apply Forall_cons. split; [| done].
    unfold goodReview, draftInRange in *. simpl. split_and!; [lia | lia | done | done].
Qed.

Lemma run_goodReviews (es : list Event) (w : World) :
  wellTyped w → Forall goodReview (reviews (ui w)) →
  Forall goodReview (reviews (ui (run w es))).
Proof.
  revert w. induction es as [| e es IH]; intros w Hw Hg; [done |].
  simpl. apply IH; [by apply step_wellTyped | by apply step_goodReviews].
Qed.

Lemma goodReviewb_spec (r : Review) : goodReviewb r = true ↔ goodReview r.
Proof.
  unfold goodReviewb, goodReview.
  rewrite !andb_true_iff, !Z.leb_le, truthy_true. tauto.
Qed.

Lemma initialWorld_good :
  wellTyped initialWorld ∧ Forall goodReview (reviews (ui initialWorld)).
Proof.
  split.
  - split; [| by apply Forall_nil]. unfold draftInRange. simpl. lia.
  - unfold initialWorld, initialState, initialReviews. simpl.
    repeat apply Forall_cons_2;
      [by apply goodReviewb_spec | by apply goodReviewb_spec | by apply Forall_nil].
Qed.

(** C8. Every committed Review has an integer rating in [1,5], a comment of
    trimmed length at least 10 and a non-empty trimmed name: from any state
    of the page whose reviews are so (the draft holding a rating of 0..5 and
    the submissions in flight holding validated drafts, as in every state
    the page can be in), the reviews are so after every sequence of events;
    in particular after every sequence of events from the initial page. *)
Theorem committed_reviews_good (w : World) (es : list Event) :
  wellTyped w →
  Forall goodReview (reviews (ui w)) →
  Forall goodReview (reviews (ui (run w es)))
  ∧ wellTyped (run w es)
  ∧ Forall goodReview (reviews (ui (run initialWorld es))).
Proof.
  intros Hw Hg. split_and!.
  - by apply run_goodReviews.
  - revert w Hw Hg. induction es as [| e es IH]; intros w Hw Hg; [done |].
    simpl. apply IH; [by apply step_wellTyped | by apply step_goodReviews].
  - destruct initialWorld_good. by apply run_goodReviews.
Qed.

Lemma committed_reviews_good_witness :
  let es :=
    [User ClickAddReview;
     User (ChangeInput NameInput (lit "Alice"));
     User (SelectStar true 4);
     User (ChangeInput CommentTextarea (lit "Great product overall"));
     User SubmitForm;
     User (SelectStar true 1);
     Timeout (mkClock 1762041600000 1762041600000)] in
  length (reviews (ui (run initialWorld es))) = 3%nat
  ∧ Forall goodReview (reviews (ui (run initialWorld es))).
Proof.
  intros es. split; [reflexivity |].
  apply (committed_reviews_good initialWorld es).
  - split; [unfold draftInRange; simpl; lia | apply Forall_nil_2].
  - apply initialWorld_good.
Defined.

(** ** The sorted and filtered view *)

Section ArraySortFacts.
Context {A : Type} (comparefn : A → A → Z).

Lemma sortInsert_perm (x : A) (l : list A) :
  Permutation (sortInsert comparefn x l) (x :: l).
Proof.
  induction l as [| y l IH]; simpl; [done |].
  destruct (comparefn x y <=? 0); [done |].
  rewrite IH. apply perm_swap.
Qed.

Lemma arraySort_perm (l : list A) : Permutation (arraySort comparefn l) l.
Proof.
  induction l as [| x l IH]; simpl; [done |].
  rewrite sortInsert_perm. by apply perm_skip.
Qed.

Lemma sortInsert_head (x : A) (l : list A) :
  Forall (before comparefn x) l → sortInsert comparefn x l = x :: l.
Proof.
  destruct l as [| y l]; simpl; [done |].
  intros Hall. apply Forall_cons_1 in Hall as [Hxy _].
  unfold before in Hxy. apply Z.leb_le in Hxy. by rewrite Hxy.
Qed.

(** The comparator is consistent: it orders the elements totally. *)
Hypothesis comparefn_trans :
  ∀ a b c, comparefn a b ≤ 0 → comparefn b c ≤ 0 → comparefn a c ≤ 0.
Hypothesis comparefn_total : ∀ a b, 0 < comparefn a b → comparefn b a ≤ 0.

Lemma sortInsert_sorted (x : A) (l : list A) :
  StronglySorted (before comparefn) l → StronglySorted (before comparefn) (sortInsert comparefn x l).
Proof.
  induction 1 as [| y l Hs IH Hy]; simpl.
  - constructor; [constructor | done].
  - destruct (Z.leb_spec (comparefn x y) 0) as [Hxy | Hxy].
    + constructor; [by constructor |].
      constructor; [done |].
      eapply Forall_impl; [exact Hy |]. intros z Hyz.
      unfold before in *. eauto.
    + constructor; [done |].
      rewrite sortInsert_perm. constructor; [| done].
      by apply comparefn_total.
Qed.

Lemma arraySort_sorted (l : list A) : StronglySorted (before comparefn) (arraySort comparefn l).
Proof.
  induction l as [| x l IH]; simpl; [constructor |].
  by apply sortInsert_sorted.
Qed.

Lemma filter_sortInsert (p : A → bool) (x : A) (l : list A) :
  StronglySorted (before comparefn) l →
  List.filter p (sortInsert comparefn x l) =
    if p x then sortInsert comparefn x (List.filter p l) else List.filter p l.
Proof.
  induction 1 as [| y l Hs IH Hy]; simpl.
  - by destruct (p x).
  - destruct (Z.leb_spec (comparefn x y) 0) as [Hxy | Hxy]; simpl.
    + destruct (p x) eqn:Hpx; [| done].
      symmetry. apply (sortInsert_head x (List.filter p (y :: l))).
      assert (Forall (before comparefn x) (y :: l)) as Hall.
      { constructor; [done |].
        eapply Forall_impl; [exact Hy |]. intros z Hyz.
        unfold before in *. eauto. }
      rewrite Forall_forall in Hall. apply Forall_forall.
      intros z Hz. apply Hall. apply list_elem_of_In.
      apply list_elem_of_In, filter_In in Hz. tauto.
    + destruct (p y) eqn:Hpy; simpl; rewrite IH.
      * destruct (p x); [| done]. simpl.
        destruct (Z.leb_spec (comparefn x y) 0); [lia | done].
      * done.
Qed.

(** Sorting and filtering commute: the filter keeps the order of the
    sorted array. *)
Lemma filter_arraySort (p : A → bool) (l : list A) :
  List.filter p (arraySort comparefn l) = arraySort comparefn (List.filter p l).
Proof.
  induction l as [| x l IH]; simpl; [done |].
  rewrite filter_sortInsert by apply arraySort_sorted.
  rewrite IH. by destruct (p x).
Qed.

(** The sort is stable: elements that compare equal keep the order they
    had in the array. *)
Hypothesis comparefn_sym : ∀ a b, comparefn a b = 0 → comparefn b a = 0.

Lemma arraySort_ties (l : list A) :
  (∀ y z, y ∈ l → z ∈ l → comparefn y z ≤ 0) → arraySort comparefn l = l.
Proof.
  induction l as [| y l IH]; intros Hties; simpl; [done |].
  rewrite IH.
  - apply sortInsert_head. apply Forall_forall. intros z Hz.
    apply Hties; [left | by right].
  - intros u v Hu Hv. apply Hties; by right.
Qed.

Lemma arraySort_stable (x : A) (l : list A) :
  List.filter (fun y => comparefn x y =? 0) (arraySort comparefn l) =
    List.filter (fun y => comparefn x y =? 0) l.
Proof.
  rewrite filter_arraySort. apply arraySort_ties.
  intros y z Hy Hz.
  apply list_elem_of_In, filter_In in Hy as [_ Hy].
  apply list_elem_of_In, filter_In in Hz as [_ Hz].
  apply Z.eqb_eq in Hy, Hz. apply comparefn_sym in Hy.
  apply comparefn_trans with x; lia.
Qed.

End ArraySortFacts.

Lemma orNum_le (x y : Z) : orNum x y ≤ 0 ↔ x < 0 ∨ (x = 0 ∧ y ≤ 0).
Proof. unfold orNum. destruct (Z.eqb_spec x 0); lia. Qed.

Lemma compareReviews_rating (a b : Review) :
  compareReviews "rating" a b ≤ 0 ↔
  r_rating b < r_rating a ∨ (r_rating a = r_rating b ∧ r_date b ≤ r_date a).
Proof.
  unfold compareReviews. simpl. rewrite orNum_le. unfold dateValue, msPerDay. lia.
Qed.

Lemma compareReviews_date (sortKey : string) (a b : Review) :
  sortKey ≠ "rating" →
  compareReviews sortKey a b ≤ 0 ↔ r_date b ≤ r_date a.
Proof.
  intros Hk. unfold compareReviews.
  destruct (String.eqb_spec sortKey "rating"); [done |].
  unfold dateValue, msPerDay. lia.
Qed.

Lemma compareReviews_trans (sortKey : string) (a b c : Review) :
  compareReviews sortKey a b ≤ 0 → compareReviews sortKey b c ≤ 0 →
  compareReviews sortKey a c ≤ 0.
Proof.
  destruct (decide (sortKey = "rating")) as [-> | Hk].
  - rewrite !compareReviews_rating. lia.
  - rewrite !compareReviews_date by done. lia.
Qed.

Lemma compareReviews_total (sortKey : string) (a b : Review) :
  0 < compareReviews sortKey a b → compareReviews sortKey b a ≤ 0.
Proof.
  destruct (decide (sortKey = "rating")) as [-> | Hk].
  - intros Hlt. apply compareReviews_rating.
    assert (¬ compareReviews "rating" a b ≤ 0) as Hn by lia.
    rewrite compareReviews_rating in Hn. lia.
  - intros Hlt. apply compareReviews_date; [done |].
    assert (¬ compareReviews sortKey a b ≤ 0) as Hn by lia.
    rewrite compareReviews_date in Hn by done. lia.
Qed.

Lemma compareReviews_sym (sortKey : string) (a b : Review) :
  compareReviews sortKey a b = 0 → compareReviews sortKey b a = 0.
Proof.
  unfold compareReviews, orNum, dateValue, msPerDay.
  destruct (String.eqb sortKey "rating"); [| lia].
  destruct (Z.eqb_spec (r_rating b - r_rating a) 0);
    destruct (Z.eqb_spec (r_rating a - r_rating b) 0); lia.
Qed.

(** Reviews that tie in the sort key keep the order of the stored array. *)
Lemma filterThenSort_stable (sortKey : string) (wanted : Z) (x : Review)
    (rs : list Review) :
  List.filter (fun y => compareReviews sortKey x y =? 0)
              (filterThenSort sortKey wanted rs) =
  List.filter (fun y => compareReviews sortKey x y =? 0)
              (List.filter (keepReview wanted) rs).
Proof.
  unfold filterThenSort. apply arraySort_stable.
  - apply compareReviews_trans.
  - apply compareReviews_total.
  - apply compareReviews_sym.
Qed.

Lemma filter_keep_all (rs : list Review) : List.filter (keepReview 0) rs = rs.
Proof.
  induction rs as [| r rs IH]; simpl; [done |]. by rewrite IH.
Qed.

Lemma filter_keep_rating (wanted : Z) (rs : list Review) :
  wanted ≠ 0 →
  List.filter (keepReview wanted) rs =
    List.filter (fun r => r_rating r =? wanted) rs.
Proof.
  intros Hw. apply filter_ext. intros r. unfold keepReview.
  by destruct (Z.eqb_spec wanted 0).
Qed.

Lemma StronglySorted_impl {A : Type} (R S : A → A → Prop) (l : list A) :
  (∀ x y, R x y → S x y) → StronglySorted R l → StronglySorted S l.
Proof.
  intros HRS. induction 1 as [| x l Hs IH Hx]; constructor; [done |].
  eapply Forall_impl; [exact Hx | auto].
Qed.

Lemma listReviews_heap (sortKey : string) (wanted : Z) (a : Arrays.ref)
    (h : gmap nat (list Review)) (rs : list Review) :
  h !! a = Some rs →
  let a' := fresh (dom h) in
  a' ≠ a
  ∧ Arrays.listReviews sortKey wanted a h =
      Some (a', <[a' := filterThenSort sortKey wanted rs]> h).
Proof.
  intros Ha. simpl.
  assert (fresh (dom h) ≠ a) as Hne.
  { intros Heq. apply (is_fresh (dom h)), elem_of_dom.
    exists rs. by rewrite Heq. }
  split; [done |].
  unfold Arrays.listReviews, Arrays.Array_filter. rewrite Ha.
  unfold Arrays.Array_sort. rewrite lookup_insert_eq.
  by rewrite insert_insert_eq.
Qed.

Lemma rating_example (e1 e2 e3 : Review) :
  r_rating e1 = 3 → r_rating e2 = 5 → r_rating e3 = 5 → r_date e2 < r_date e3 →
  filterThenSort "rating" 0 [e1; e2; e3] = [e3; e2; e1].
Proof.
  intros H1 H2 H3 Hd. unfold filterThenSort. rewrite filter_keep_all.
  assert ((compareReviews "rating" e2 e3 <=? 0) = false) as H23.
  { apply Z.leb_gt. apply Z.nle_gt. rewrite compareReviews_rating. lia. }
  assert ((compareReviews "rating" e1 e3 <=? 0) = false) as H13.
  { apply Z.leb_gt. apply Z.nle_gt. rewrite compareReviews_rating. lia. }
  assert ((compareReviews "rating" e1 e2 <=? 0) = false) as H12.
  { apply Z.leb_gt. apply Z.nle_gt. rewrite compareReviews_rating. lia. }
  simpl. rewrite H23. simpl. rewrite H13, H12. done.
Qed.

(** C5. [listReviews(sortKey, filterRating)] is a derived view that leaves
    the stored array alone: the result is a new array and the stored one is
    unchanged.  With [filterRating = 0] no review is removed; otherwise
    exactly the reviews whose rating equals [filterRating] are kept, in the
    order the sort gives them.  With [sortKey = "date"] the view is ordered
    by date descending; with [sortKey = "rating"] by rating descending, ties
    by date descending; so [[{rating:3,date:d1},{rating:5,date:d2},
    {rating:5,date:d3}]] with [d3 > d2], sorted by rating and unfiltered,
    comes out as the d3 entry, the d2 entry, the d1 entry. *)
Theorem listReviews_view (sortKey : string) (wanted : Z) (a : Arrays.ref)
    (h : gmap nat (list Review)) (rs : list Review) :
  h !! a = Some rs →
  ∃ (a' : Arrays.ref) (h' : gmap nat (list Review)) (view : list Review),
    Arrays.listReviews sortKey wanted a h = Some (a', h')
    ∧ a' ≠ a ∧ h' !! a = Some rs ∧ (∀ b, b ≠ a' → h' !! b = h !! b)
    ∧ h' !! a' = Some view
    ∧ view = filterThenSort sortKey wanted rs
    ∧ (∀ st, reviews st = rs → sortBy st = sortKey → filterRating st = wanted →
         sortedAndFilteredReviews st = view)
    ∧ (wanted = 0 → Permutation view rs)
    ∧ (wanted ≠ 0 →
         Permutation view (List.filter (fun r => r_rating r =? wanted) rs)
         ∧ (∀ r, r ∈ view ↔ r ∈ rs ∧ r_rating r = wanted)
         ∧ view = List.filter (fun r => r_rating r =? wanted)
                    (filterThenSort sortKey 0 rs))
    ∧ (sortKey = "date" → StronglySorted newerFirst view)
    ∧ (sortKey = "rating" → StronglySorted betterFirst view)
    ∧ (∀ e1 e2 e3,
         r_rating e1 = 3 → r_rating e2 = 5 → r_rating e3 = 5 →
         r_date e2 < r_date e3 →
         filterThenSort "rating" 0 [e1; e2; e3] = [e3; e2; e1]).
Proof.
  intros Ha. destruct (listReviews_heap sortKey wanted a h rs Ha) as [Hne Hrun].
  eexists _, _, (filterThenSort sortKey wanted rs).
  split; [exact Hrun |]. split; [exact Hne |].
  split; [by rewrite lookup_insert_ne |].
  split; [by intros b Hb; rewrite lookup_insert_ne |].
  split; [by rewrite lookup_insert_eq |].
  split; [done |].
  split; [by intros st <- <- <- |].
  split_and!.
  - intros ->. unfold filterThenSort. rewrite filter_keep_all.
    apply arraySort_perm.
  - intros Hw. unfold filterThenSort.
    rewrite filter_keep_all, (filter_keep_rating _ _ Hw). split_and!.
    + apply arraySort_perm.
    + intros r. rewrite (arraySort_perm (compareReviews sortKey)).
      rewrite !list_elem_of_In, filter_In, Z.eqb_eq. done.
    + symmetry. apply filter_arraySort.
      * apply compareReviews_trans.
      * apply compareReviews_total.
  - intros ->. unfold filterThenSort.
    eapply StronglySorted_impl;
      [| apply arraySort_sorted;
         [apply compareReviews_trans | apply compareReviews_total]].
    intros x y Hxy. unfold before in Hxy.
    by apply compareReviews_date in Hxy.
  - intros ->. unfold filterThenSort.
    eapply StronglySorted_impl;
      [| apply arraySort_sorted;
         [apply compareReviews_trans | apply compareReviews_total]].
    intros x y Hxy. unfold before in Hxy.
    by apply compareReviews_rating in Hxy.
  - apply rating_example.
Qed.

Lemma listReviews_view_witness :
  ∃ (a' : Arrays.ref) (h' : gmap nat (list Review)) (view : list Review),
    Arrays.listReviews "rating" 4 0%nat {[0%nat := initialReviews]} = Some (a', h')
    ∧ a' ≠ 0%nat
    ∧ h' !! 0%nat = Some initialReviews
    ∧ h' !! a' = Some view
    ∧ view = filterThenSort "rating" 4 initialReviews.
Proof.
  destruct (listReviews_view "rating" 4 0%nat {[0%nat := initialReviews]}
              initialReviews)
    as (a' & h' & view & H1 & H2 & H3 & _ & H5 & H6 & _).
  { apply lookup_singleton_eq. }
  exists a', h', view. split_and!; assumption.
Defined.

(** ** The average rating *)

Module NumberFacts.
Import Number.

Lemma roundHalfEven_err (a b : Z) :
  0 < b → - b ≤ 2 * (roundHalfEven a b * b - a) ≤ b.
Proof.
  intros Hb. unfold roundHalfEven.
  pose proof (Z.div_mod a b ltac:(lia)) as Hdm.
  pose proof (Z.mod_pos_bound a b Hb) as Hr.
  set (q := a / b) in *. set (r := a mod b) in *.
  destruct (Z.ltb_spec (2 * r) b); [lia |].
  destruct (Z.ltb_spec b (2 * r)); [lia |].
  destruct (Z.even q); lia.
Qed.

(** The quotient has a negative exponent, 53 significant bits, and is within
    half a unit in the last place of [p / c]. *)
Lemma divPos_spec (p c : Z) :
  0 < p → 0 < c → 20 * p < 2 ^ 53 →
  ∃ E, 0 < E ∧ 2 ^ (- expo (divPos p c)) = E ∧ expo (divPos p c) < 0
     ∧ 2 ^ 52 * c ≤ p * E
     ∧ - c ≤ 2 * (mant (divPos p c) * c - p * E) ≤ c.
Proof.
  intros Hp Hc Hs.
  assert (Hlp : 0 ≤ Z.log2 p < 49).
  { split; [apply Z.log2_nonneg |]. apply Z.log2_lt_pow2; lia. }
  assert (Hlc : 0 ≤ Z.log2 c) by apply Z.log2_nonneg.
  destruct (Z.log2_spec p Hp) as [Hp1 _].
  destruct (Z.log2_spec c Hc) as [_ Hc2].
  set (lp := Z.log2 p) in *. set (lc := Z.log2 c) in *.
  assert (HE0 : 2 ^ lp * 2 ^ (53 + lc - lp) = 2 ^ 52 * 2 ^ (Z.succ lc)).
  { rewrite <- (Z.pow_add_r 2 lp (53 + lc - lp)); [| lia | lia].
    rewrite <- (Z.pow_add_r 2 52 (Z.succ lc)); [| lia | lia]. f_equal. lia. }
  assert (HE0pos : 0 < 2 ^ (53 + lc - lp)) by (apply Z.pow_pos_nonneg; lia).
  assert (Hnorm0 : 2 ^ 52 * c ≤ p * 2 ^ (53 + lc - lp)) by nia.
  unfold divPos. fold lp lc.
  assert (Hs0 : scaled p c (lp - lc - 53) = (p * 2 ^ (53 + lc - lp), c)).
  { unfold scaled. destruct (Z.leb_spec (lp - lc - 53) 0); [| lia].
    by replace (- (lp - lc - 53)) with (53 + lc - lp) by lia. }
  rewrite Hs0. cbn [fst snd].
  destruct (Z.leb_spec (2 ^ 53) (p * 2 ^ (53 + lc - lp) / c)) as [Hbig | Hsmall].
  - assert (Hs1 : scaled p c (lp - lc - 53 + 1) = (p * 2 ^ (52 + lc - lp), c)).
    { unfold scaled. destruct (Z.leb_spec (lp - lc - 53 + 1) 0); [| lia].
      by replace (- (lp - lc - 53 + 1)) with (52 + lc - lp) by lia. }
    rewrite Hs1. cbn [fst snd mant expo].
    exists (2 ^ (52 + lc - lp)).
    assert (Hpos : 0 < 2 ^ (52 + lc - lp)) by (apply Z.pow_pos_nonneg; lia).
    assert (Hdouble : 2 ^ (53 + lc - lp) = 2 * 2 ^ (52 + lc - lp)).
    { replace (53 + lc - lp) with (Z.succ (52 + lc - lp)) by lia.
      apply Z.pow_succ_r. lia. }
    pose proof (Z.mul_div_le (p * 2 ^ (53 + lc - lp)) c Hc) as Hmd.
    split; [done |]. split; [f_equal; lia |]. split; [lia |].
    split; [nia |].
    pose proof (roundHalfEven_err (p * 2 ^ (52 + lc - lp)) c Hc). lia.
  - rewrite Hs0. cbn [fst snd mant expo].
    exists (2 ^ (53 + lc - lp)).
    split; [done |]. split; [f_equal; lia |]. split; [lia |].
    split; [done |].
    pose proof (roundHalfEven_err (p * 2 ^ (53 + lc - lp)) c Hc). lia.
Qed.

(** The tenths written by [toFixed(1)] for the binary64 quotient are a
    nearest tenth of the exact quotient. *)
Lemma tenths_near (p c : Z) :
  0 < p → 0 < c → 20 * p < 2 ^ 53 →
  let n := tenths (divPos p c) in
  0 ≤ n ∧ - c ≤ 2 * (n * c - 10 * p) ≤ c.
Proof.
  intros Hp Hc Hs.
  destruct (divPos_spec p c Hp Hc Hs) as (E & HE & HpowE & Hexp & Hnorm & Hround).
  unfold tenths. destruct (Z.leb_spec 0 (expo (divPos p c))); [lia |].
  replace (1 - expo (divPos p c)) with (Z.succ (- expo (divPos p c))) by lia.
  rewrite Z.pow_succ_r by lia. rewrite HpowE.
  set (m := mant (divPos p c)) in *.
  assert (Hm : 0 ≤ m) by nia.
  pose proof (Z.div_mod (20 * m + E) (2 * E) ltac:(lia)) as Hdm.
  pose proof (Z.mod_pos_bound (20 * m + E) (2 * E) ltac:(lia)) as Hr.
  set (n := (20 * m + E) / (2 * E)) in *.
  set (r := (20 * m + E) mod (2 * E)) in *.
  simpl.
  assert (Hn : 0 ≤ n) by (apply Z.div_pos; lia).
  split; [done |].
  assert (H252 : 2 ^ 52 * 2 = 2 ^ 53) by reflexivity.
  split.
  - destruct (Z.le_gt_cases (- c) (2 * (n * c - 10 * p))) as [| Hbad]; [done |].
    exfalso.
    assert (H1 : 20 * m * c < (2 * n + 1) * E * c) by nia.
    assert (H2 : 20 * p * E - 10 * c ≤ 20 * m * c) by lia.
    assert (H3 : E * (20 * p - 2 * n * c - c) < 10 * c) by nia.
    assert (H4 : E < 10 * c) by nia.
    nia.
  - destruct (Z.le_gt_cases (2 * (n * c - 10 * p)) c) as [| Hbad]; [done |].
    exfalso.
    assert (H1 : 2 * E * n * c ≤ (20 * m + E) * c) by nia.
    assert (H2 : 20 * m * c ≤ 20 * p * E + 10 * c) by lia.
    assert (H3 : E * (2 * n * c - 20 * p - c) ≤ 10 * c) by nia.
    assert (H4 : E ≤ 10 * c) by nia.
    nia.
Qed.

End NumberFacts.

(** [Number.divPos] is the binary64 division: checked against the standard
    library's on every sum of up to twelve ratings and on large operands. *)
Example divPos_agrees_with_binary64 :
  forallb (fun c => forallb (fun p => Number.agrees p c) (seqZ 1 (5 * c)))
          (seqZ 1 12)
  && forallb (fun pc => Number.agrees (fst pc) (snd pc))
       [(2 ^ 53 - 1, 1); (2 ^ 53 - 1, 2 ^ 53 - 2); (1, 2 ^ 53 - 1);
        (2 ^ 52 + 1, 3); (12345678901234, 7); (7, 12345678901234);
        (21474836475, 4294967295); (4294967291, 4294967295)]
  = true.
Proof. vm_compute. reflexivity. Qed.

(** Ties are decided by the binary64 quotient: 29/20 is below 1.45 and is
    written 1.4, while 5/4 is exactly 1.25 and is written 1.3. *)
Example toFixed1_ties :
  Number.toFixed1 (Number.div 29 20) = "1.4"
  ∧ Number.toFixed1 (Number.div 5 4) = "1.3"
  ∧ Number.toFixed1 (Number.div 8 2) = "4.0".
Proof. vm_compute. done. Qed.

Lemma fold_left_ratings (rs : list Review) (acc : Z) :
  fold_left (fun sum review => sum + r_rating review) rs acc =
    acc + foldr (fun r a => r_rating r + a) 0 rs.
Proof.
  revert acc. induction rs as [| r rs IH]; intros acc; simpl; [lia |].
  rewrite IH. lia.
Qed.

Lemma sumRatings_foldr (rs : list Review) :
  sumRatings rs = foldr (fun r a => r_rating r + a) 0 rs.
Proof. unfold sumRatings. rewrite fold_left_ratings. lia. Qed.

Lemma sumRatings_bounds (rs : list Review) :
  Forall (fun r => 1 ≤ r_rating r ≤ 5) rs →
  Z.of_nat (length rs) ≤ sumRatings rs ≤ 5 * Z.of_nat (length rs).
Proof.
  rewrite sumRatings_foldr.
  induction 1 as [| r rs Hr Hrs IH]; simpl length; simpl foldr; lia.
Qed.

Lemma toFixed1_divPos (p c : Z) :
  0 < p → 0 < c → 20 * p < 2 ^ 53 →
  Number.toFixed1 (Number.div p c) =
    Number.fixed1 (Number.tenths (Number.divPos p c)).
Proof.
  intros Hp Hc Hs. unfold Number.div.
  destruct (Z.eqb_spec p 0); [lia |].
  destruct (Z.ltb_spec 0 p); [| lia].
  destruct (NumberFacts.divPos_spec p c Hp Hc Hs)
    as (E & HE & _ & _ & Hnorm & Hround).
  assert (0 ≤ Number.mant (Number.divPos p c)) as Hm by nia.
  unfold Number.toFixed1.
  destruct (Z.ltb_spec (Number.mant (Number.divPos p c)) 0); [lia |].
  rewrite Z.abs_eq by done.
  by destruct (Number.divPos p c).
Qed.

(** C4. For every review list (an array, so of fewer than 2^32 reviews, each
    with a rating of 1..5), [averageRating] is the number 0 when the list is
    empty and otherwise the text of a decimal with one digit after the
    point, [n] tenths, that is nearest to sum(ratings)/count: it differs from
    the exact quotient by at most 1/20.  The average of two reviews rated 5
    and 4 is written 4.5; the average of no review is 0. *)
Theorem averageRating_rounds (rs : list Review) :
  Forall (fun r => 1 ≤ r_rating r ≤ 5) rs →
  Z.of_nat (length rs) < 2 ^ 32 →
  let count := Z.of_nat (length rs) in
  let sum := foldr (fun r acc => r_rating r + acc) 0 rs in
  sumRatings rs = sum
  ∧ (rs = [] → averageRating rs = JsNumber 0)
  ∧ (rs ≠ [] →
       ∃ n : Z, 0 ≤ n
         ∧ averageRating rs = JsString (Number.fixed1 n)
         ∧ - count ≤ 2 * (n * count - 10 * sum) ≤ count)
  ∧ (∀ r1 r2, r_rating r1 = 5 → r_rating r2 = 4 →
       averageRating [r1; r2] = JsString "4.5")
  ∧ averageRating [] = JsNumber 0.
Proof.
  intros Hrange Hlen. simpl.
  split; [apply sumRatings_foldr |].
  split; [by intros -> |].
  split; [| split; [| done]].
  - intros Hne. rewrite <- sumRatings_foldr.
    pose proof (sumRatings_bounds rs Hrange) as Hsum.
    assert (0 < Z.of_nat (length rs)) as Hc by (destruct rs; [done | simpl; lia]).
    assert (20 * sumRatings rs < 2 ^ 53) as Hs.
    { change (2 ^ 32) with 4294967296 in Hlen.
      change (2 ^ 53) with 9007199254740992. lia. }
    exists (Number.tenths (Number.divPos (sumRatings rs) (Z.of_nat (length rs)))).
    destruct (NumberFacts.tenths_near (sumRatings rs) (Z.of_nat (length rs)))
      as [Hn Hnear]; [lia | done | done |].
    split; [done |]. split; [| done].
    unfold averageRating. destruct (Z.ltb_spec 0 (Z.of_nat (length rs))); [| lia].
    by rewrite toFixed1_divPos by lia.
  - intros r1 r2 H1 H2. unfold averageRating, sumRatings. simpl.
    rewrite H1, H2. by vm_compute.
Qed.

Lemma averageRating_rounds_witness :
  sumRatings initialReviews = 9
  ∧ averageRating initialReviews = JsString "4.5".
Proof.
  destruct (averageRating_rounds initialReviews) as (_ & _ & _ & H & _).
  - unfold initialReviews. repeat apply Forall_cons_2; simpl; try lia.
    apply Forall_nil_2.
  - reflexivity.
  - split; [reflexivity |]. apply H; reflexivity.
Defined.

(** * More properties of the component *)

(** ** Trimming *)

Lemma trimStart_app_ws (ws s : jsstring) :
  Forall (fun c => isWhiteSpace c = true) ws → trimStart (ws ++ s) = trimStart s.
Proof.
  induction 1 as [| c ws Hc _ IH]; simpl; [done |]. by rewrite Hc.
Qed.

Lemma trimStart_nil_ws (s : jsstring) :
  trimStart s = [] ↔ Forall (fun c => isWhiteSpace c = true) s.
Proof.
  induction s as [| c s IH]; simpl.
  - split; [by constructor | done].
  - destruct (isWhiteSpace c) eqn:Hc.
    + rewrite IH. split; [by constructor |]. intros H. by apply Forall_cons_1 in H as [_ H].
    + split; [done |]. intros H. apply Forall_cons_1 in H as [H _]. congruence.
Qed.

Lemma trimStart_app_r (s x : jsstring) :
  trimStart s ≠ [] → trimStart (s ++ x) = trimStart s ++ x.
Proof.
  induction s as [| c s IH]; simpl; [done |].
  destruct (isWhiteSpace c); [exact IH | done].
Qed.

Lemma trimStart_length (s : jsstring) : (length (trimStart s) ≤ length s)%nat.
Proof.
  induction s as [| c s IH]; simpl; [done |].
  destruct (isWhiteSpace c); simpl; lia.
Qed.

Lemma trimEnd_app_ws (s ws : jsstring) :
  Forall (fun c => isWhiteSpace c = true) ws → trimEnd (s ++ ws) = trimEnd s.
Proof.
  intros Hws. unfold trimEnd. rewrite rev_app_distr.
  rewrite trimStart_app_ws; [done |]. by apply Forall_rev.
Qed.

Lemma trim_padding (a s b : jsstring) :
  Forall (fun c => isWhiteSpace c = true) a →
  Forall (fun c => isWhiteSpace c = true) b →
  trim (a ++ s ++ b) = trim s.
Proof.
  intros Ha Hb. unfold trim. rewrite (trimStart_app_ws a) by done.
  destruct (trimStart s) as [| c t] eqn:Hs.
  - apply trimStart_nil_ws in Hs.
    assert (trimStart (s ++ b) = []) as ->; [| done].
    apply trimStart_nil_ws. by apply Forall_app.
  - rewrite trimStart_app_r by (by rewrite Hs). rewrite Hs.
    by apply trimEnd_app_ws.
Qed.

Lemma trim_length (s : jsstring) : jslength (trim s) ≤ jslength s.
Proof.
  unfold jslength, trim, trimEnd. rewrite length_rev.
  pose proof (trimStart_length (rev (trimStart s))) as H1.
  pose proof (trimStart_length s) as H2.
  rewrite length_rev in H1. lia.
Qed.

Lemma trim_all_ws (s : jsstring) :
  Forall (fun c => isWhiteSpace c = true) s → trim s = [].
Proof.
  intros Hs. unfold trim. by rewrite (proj2 (trimStart_nil_ws s) Hs).
Qed.

(** ** Validation and white space *)

(** X1. Validation looks at the trimmed text only: white space put before
    and after the name and the comment of a draft changes no error, so it
    turns no rejected draft into an accepted one or back. *)
Theorem validation_ignores_padding (d : Draft) (a b a' b' : jsstring) :
  Forall (fun c => isWhiteSpace c = true) a →
  Forall (fun c => isWhiteSpace c = true) b →
  Forall (fun c => isWhiteSpace c = true) a' →
  Forall (fun c => isWhiteSpace c = true) b' →
  let padded :=
    mkDraft (a ++ d_name d ++ b) (d_rating d) (a' ++ d_comment d ++ b') in
  validationErrors padded = validationErrors d
  ∧ (validDraft padded ↔ validDraft d).
Proof.
  intros Ha Hb Ha' Hb'. simpl.
  assert (validationErrors
            (mkDraft (a ++ d_name d ++ b) (d_rating d) (a' ++ d_comment d ++ b'))
          = validationErrors d) as He.
  { unfold validationErrors. simpl. by rewrite !trim_padding. }
  split; [exact He |]. by rewrite <- !errors_empty_iff, He.
Qed.

Lemma validation_ignores_padding_witness :
  validationErrors
    (mkDraft (lit "  " ++ lit "Alice" ++ lit " ") 4
             (lit " " ++ lit "Great product overall" ++ lit "  "))
  = validationErrors aliceDraft.
Proof.
  apply (validation_ignores_padding aliceDraft (lit "  ") (lit " ") (lit " ") (lit "  "));
    repeat constructor.
Defined.

(** X2. A name or a comment made of white space only is reported as
    missing, whatever the rest of the draft holds: the name gets 'Name is
    required', the comment 'Review comment is required' (not the message
    for a short comment), and the draft is rejected. *)
Theorem blank_fields_are_missing (st : State) :
  (Forall (fun c => isWhiteSpace c = true) (d_name (newReview st)) →
     formErrors (fst (validateForm st)) !! "name" = Some msg_name_required
     ∧ snd (validateForm st) = false)
  ∧ (Forall (fun c => isWhiteSpace c = true) (d_comment (newReview st)) →
     formErrors (fst (validateForm st)) !! "comment" = Some msg_comment_required
     ∧ snd (validateForm st) = false).
Proof.
  split; intros Hws; apply trim_all_ws in Hws; simpl.
  - split.
    + rewrite errors_name. by case_decide.
    + apply not_true_is_false. rewrite noKeys_valid. by intros (? & _).
  - split.
    + rewrite errors_comment. by case_decide.
    + apply not_true_is_false. rewrite noKeys_valid. intros (_ & _ & Hc).
      rewrite Hws in Hc. unfold jslength in Hc. simpl in Hc. lia.
Qed.

Lemma blank_fields_are_missing_witness :
  let st := mkState initialReviews
              (mkDraft (lit "   ") 5 (lit "Good quality, fast delivery."))
              true false ∅ "date" 0 2 in
  formErrors (fst (validateForm st)) !! "name" = Some msg_name_required
  ∧ snd (validateForm st) = false.
Proof.
  intros st. apply (blank_fields_are_missing st). repeat constructor.
Defined.

(** X3. The counter under the comment shows the length of the text as
    typed, the validation measures it trimmed: the measured length never
    exceeds the counter, so a comment whose counter shows less than 10 is
    always rejected with an error on the comment; a counter of 10 or more
    does not mean acceptance. *)
Theorem characterCount_bounds_validation (st : State) :
  characterCount st < 10 →
  jslength (trim (d_comment (newReview st))) ≤ characterCount st
  ∧ snd (validateForm st) = false
  ∧ (formErrors (fst (validateForm st)) !! "comment" = Some msg_comment_required
     ∨ formErrors (fst (validateForm st)) !! "comment" = Some msg_comment_short)
  ∧ (∃ st0, 10 ≤ characterCount st0
       ∧ formErrors (fst (validateForm st0)) !! "comment" = Some msg_comment_short).
Proof.
  unfold characterCount. intros Hlt.
  pose proof (trim_length (d_comment (newReview st))) as Hle.
  split; [done |]. simpl. split_and!.
  - apply not_true_is_false. rewrite noKeys_valid. intros (_ & _ & Hc). lia.
  - rewrite errors_comment. case_decide; [by left |].
    case_decide; [by right | lia].
  - exists (mkState [] (mkDraft [] 0 (lit "  too short     ")) true false ∅ "date" 0 0).
    split; [by vm_compute |]. by vm_compute.
Qed.

Lemma characterCount_bounds_validation_witness :
  let st := mkState [] (mkDraft (lit "Bob") 3 (lit "Not bad")) true false ∅ "date" 0 0 in
  snd (validateForm st) = false.
Proof.
  intros st. apply (characterCount_bounds_validation st). by vm_compute.
Defined.

(** ** The form *)

(** X4. While the form is open the toggle button does what the Cancel button
    does; and opening a closed form and closing it again with the toggle
    button gives back the state the page was in. *)
Theorem toggle_closes_like_cancel (st : State) :
  (showForm st = true → handleFormToggle st = handleCancelForm st)
  ∧ (showForm st = false → closedFormClean st →
     showForm (handleFormToggle st) = true
     ∧ handleFormToggle (handleFormToggle st) = st).
Proof.
  destruct st as [rs d sf sub errs sb fr rc]. unfold closedFormClean. simpl.
  split.
  - intros ->. reflexivity.
  - intros -> Hclean. destruct Hclean as [-> ->]; [done |]. split; reflexivity.
Qed.

Lemma toggle_closes_like_cancel_witness :
  handleFormToggle (handleFormToggle initialState) = initialState.
Proof.
  apply (toggle_closes_like_cancel initialState); [reflexivity | by intros _].
Defined.

Lemma State_eq (st st' : State) :
  reviews st = reviews st' → newReview st = newReview st' →
  showForm st = showForm st' → isSubmitting st = isSubmitting st' →
  formErrors st = formErrors st' → sortBy st = sortBy st' →
  filterRating st = filterRating st' → reviewCount st = reviewCount st' →
  st = st'.
Proof.
  destruct st, st'. simpl. by intros -> -> -> -> -> -> -> ->.
Qed.

Lemma handleInputChange_frame (f : TextField) (value : jsstring) (st : State) :
  let st' := handleInputChange f value st in
  reviews st' = reviews st ∧ newReview st' = setField f value (newReview st)
  ∧ showForm st' = showForm st ∧ isSubmitting st' = isSubmitting st
  ∧ sortBy st' = sortBy st ∧ filterRating st' = filterRating st
  ∧ reviewCount st' = reviewCount st.
Proof.
  unfold handleInputChange. by destruct (errorShown _).
Qed.

Lemma targetName_inj (f g : TextField) : targetName f = targetName g → f = g.
Proof. by destruct f, g. Qed.

Lemma targetName_not_rating (f : TextField) : targetName f ≠ "rating".
Proof. by destruct f. Qed.

Lemma errorShown_after_clear (k : string) (errs : gmap string string) :
  (if errorShown (errs !! k) then <[k := ""]> errs else errs) !! k =
    if errorShown (errs !! k) then Some "" else errs !! k.
Proof.
  destruct (errorShown (errs !! k)); [by rewrite lookup_insert_eq | done].
Qed.

(** X5. Edits of different controls commute: typing in the name and in the
    comment, in either order, and typing in a text control and selecting a
    star, in either order, lead to the same state, draft and errors. *)
Theorem edits_commute (st : State) :
  (∀ f g v w, f ≠ g →
     handleInputChange f v (handleInputChange g w st) =
     handleInputChange g w (handleInputChange f v st))
  ∧ (∀ f v star,
     StarRating.handleClick true (Some handleRatingChange) star
       (handleInputChange f v st) =
     handleInputChange f v
       (StarRating.handleClick true (Some handleRatingChange) star st)).
Proof.
  split.
  - intros f g v w Hfg.
    assert (targetName f ≠ targetName g) as Hk
      by (intros Heq; by apply targetName_inj in Heq).
    destruct (handleInputChange_frame g w st) as (R1 & D1 & S1 & B1 & K1 & F1 & C1).
    destruct (handleInputChange_frame f v st) as (R2 & D2 & S2 & B2 & K2 & F2 & C2).
    destruct (handleInputChange_frame f v (handleInputChange g w st))
      as (R3 & D3 & S3 & B3 & K3 & F3 & C3).
    destruct (handleInputChange_frame g w (handleInputChange f v st))
      as (R4 & D4 & S4 & B4 & K4 & F4 & C4).
    apply State_eq; try congruence.
    + rewrite D3, D4, D1, D2. by destruct f, g.
    + rewrite !handleInputChange_errors.
      assert (∀ errs : gmap string string,
                (if errorShown (errs !! targetName g)
                 then <[targetName g := ""]> errs else errs) !! targetName f
                = errs !! targetName f) as Hf.
      { intros errs. destruct (errorShown _); [| done]. by rewrite lookup_insert_ne. }
      assert (∀ errs : gmap string string,
                (if errorShown (errs !! targetName f)
                 then <[targetName f := ""]> errs else errs) !! targetName g
                = errs !! targetName g) as Hg.
      { intros errs. destruct (errorShown _); [| done]. by rewrite lookup_insert_ne. }
      rewrite Hf, Hg.
      destruct (errorShown (formErrors st !! targetName f));
        destruct (errorShown (formErrors st !! targetName g)); try done.
      by apply insert_insert_ne.
  - intros f v star.
    pose proof (targetName_not_rating f) as Hk.
    unfold StarRating.handleClick, handleInputChange. simpl.
    rewrite lookup_insert_ne by done.
    destruct (errorShown (formErrors st !! targetName f)); destruct f; simpl;
      unfold setFormErrors, setNewReview, handleRatingChange; simpl;
      f_equal; by apply insert_insert_ne.
Qed.

Lemma edits_commute_witness :
  handleInputChange NameInput (lit "Alice")
    (handleInputChange CommentTextarea (lit "Great product overall") initialState) =
  handleInputChange CommentTextarea (lit "Great product overall")
    (handleInputChange NameInput (lit "Alice") initialState).
Proof.
  apply (edits_commute initialState). discriminate.
Defined.

(** X6. On one control the last edit wins: typing twice in a text control,
    or selecting two stars one after the other, leaves the state that the
    second edit alone would leave. *)
Theorem last_edit_wins (st : State) :
  (∀ f v w,
     handleInputChange f v (handleInputChange f w st) = handleInputChange f v st)
  ∧ (∀ a b,
     StarRating.handleClick true (Some handleRatingChange) b
       (StarRating.handleClick true (Some handleRatingChange) a st) =
     StarRating.handleClick true (Some handleRatingChange) b st).
Proof.
  split.
  - intros f v w.
    destruct (handleInputChange_frame f w st) as (R1 & D1 & S1 & B1 & K1 & F1 & C1).
    destruct (handleInputChange_frame f v st) as (R2 & D2 & S2 & B2 & K2 & F2 & C2).
    destruct (handleInputChange_frame f v (handleInputChange f w st))
      as (R3 & D3 & S3 & B3 & K3 & F3 & C3).
    apply State_eq; try congruence.
    + rewrite D3, D1, D2. by destruct f.
    + rewrite !handleInputChange_errors, errorShown_after_clear.
      destruct (errorShown (formErrors st !! targetName f)) eqn:He; [done |].
      by rewrite He.
  - intros a b. unfold StarRating.handleClick.
    apply State_eq; simpl; try done. by rewrite insert_insert_eq.
Qed.

(** ** Submitting *)

Lemma errorShown_name (d : Draft) :
  errorShown (validationErrors d !! "name") = bool_decide (trim (d_name d) = []).
Proof.
  rewrite errors_name. case_decide.
  - by rewrite bool_decide_eq_true_2.
  - by rewrite bool_decide_eq_false_2.
Qed.

Lemma errorShown_comment (d : Draft) :
  errorShown (validationErrors d !! "comment") =
    bool_decide (jslength (trim (d_comment d)) < 10).
Proof.
  rewrite errors_comment. case_decide as Ht.
  - rewrite bool_decide_eq_true_2; [done |]. rewrite Ht. unfold jslength. simpl. lia.
  - case_decide.
    + by rewrite bool_decide_eq_true_2.
    + by rewrite bool_decide_eq_false_2.
Qed.

(** X7. A failed submission moves the focus by the errors that were shown
    before it, not by the ones it finds.  From a form that shows no error
    the focus is not moved, whatever is wrong with the draft.  When the same
    draft is submitted again the focus goes to the name if the trimmed name
    is empty, else to the comment if the trimmed comment is shorter than 10,
    and is not moved when only the rating is missing.  A submission that
    passes validation never moves it. *)
Theorem failed_submit_focus (st : State) :
  (formErrors st = ∅ → handleSubmit_focus true true st = None)
  ∧ (validDraft (newReview st) → handleSubmit_focus true true st = None)
  ∧ (¬ validDraft (newReview st) →
     handleSubmit_focus true true (fst (handleSubmit st)) =
       if decide (trim (d_name (newReview st)) = []) then Some NameInput
       else if decide (jslength (trim (d_comment (newReview st))) < 10)
            then Some CommentTextarea
            else None).
Proof.
  split_and!.
  - intros He. unfold handleSubmit_focus. rewrite He, !lookup_empty. simpl.
    by destruct (negb _).
  - intros Hv. unfold handleSubmit_focus. simpl.
    by rewrite (proj2 (noKeys_valid _) Hv).
  - intros Hn. rewrite (handleSubmit_invalid _ Hn).
    unfold handleSubmit_focus. simpl.
    assert (noKeys (validationErrors (newReview st)) = false) as ->.
    { apply not_true_is_false. by rewrite noKeys_valid. }
    simpl. rewrite errorShown_name, errorShown_comment, !andb_true_r.
    repeat case_decide;
      rewrite ?bool_decide_eq_true_2, ?bool_decide_eq_false_2 by done; done.
Qed.

Lemma failed_submit_focus_witness :
  let st := mkState initialReviews (mkDraft (lit " ") 0 (lit "short")) true false
              ∅ "date" 0 2 in
  handleSubmit_focus true true st = None
  ∧ handleSubmit_focus true true (fst (handleSubmit st)) = Some NameInput.
Proof.
  intros st. destruct (failed_submit_focus st) as (H0 & _ & H). split.
  - apply H0. reflexivity.
  - assert (¬ validDraft (newReview st)) as Hn.
    { intros (Hn & _). apply Hn. by vm_compute. }
    exact (eq_trans (H Hn) eq_refl).
Defined.

Lemma dispatch_reviewCount (a : Action) (st : State) :
  reviewCount (fst (dispatch a st)) = reviewCount st.
Proof.
  unfold dispatch. destruct (rendered st a); [| done].
  destruct a as [| | | f v | [|] star | |]; simpl; try done.
  - unfold handleFormToggle. by destruct (showForm st).
  - apply handleSubmit_frame.
  - unfold handleInputChange. by destruct (errorShown _).
Qed.

(** X8. The counter [reviewCountRef] follows the list: every event of the
    page changes it by as much as the length of the review list, so in every
    state the page reaches from its initial state it is the number of
    reviews. *)
Theorem reviewCount_is_length (w : World) (es : list Event) :
  reviewCount (ui (run w es)) - Z.of_nat (length (reviews (ui (run w es))))
    = reviewCount (ui w) - Z.of_nat (length (reviews (ui w)))
  ∧ reviewCount (ui (run initialWorld es))
      = Z.of_nat (length (reviews (ui (run initialWorld es)))).
Proof.
  assert (∀ es w,
    reviewCount (ui (run w es)) - Z.of_nat (length (reviews (ui (run w es))))
      = reviewCount (ui w) - Z.of_nat (length (reviews (ui w)))) as Hrun.
  { clear. intros es. induction es as [| e es IH]; intros w; [done |].
    simpl. rewrite IH. destruct e as [a | clk]; simpl.
    - pose proof (dispatch_reviewCount a (ui w)) as Hc.
      pose proof (dispatch_reviews a (ui w)) as Hr.
      destruct (dispatch a (ui w)). simpl in *. by rewrite Hc, Hr.
    - destruct (timers w); [done |]. simpl. lia. }
  split; [apply Hrun |].
  specialize (Hrun es initialWorld). simpl in Hrun. lia.
Qed.

Lemma run_app (w : World) (es es' : list Event) :
  run w (es ++ es') = run (run w es) es'.
Proof. unfold run. apply fold_left_app. Qed.

Lemma run_users (acts : list Action) (w : World) :
  reviews (ui (run w (List.map User acts))) = reviews (ui w)
  ∧ ∃ more, timers (run w (List.map User acts)) = timers w ++ more.
Proof.
  revert w. induction acts as [| a acts IH]; intros w.
  - split; [done |]. exists []. by rewrite app_nil_r.
  - cbn [List.map].
    change (run w (User a :: List.map User acts))
      with (run (step w (User a)) (List.map User acts)).
    destruct (IH (step w (User a))) as [Hr [more Ht]].
    rewrite Hr, Ht. simpl.
    pose proof (dispatch_reviews a (ui w)) as Hd.
    destruct (dispatch a (ui w)) as [st' k]. simpl in *.
    split; [done |]. exists (option_list k ++ more). by rewrite app_assoc.
Qed.

(** X9. What a submission commits is the draft as it was when the form was
    submitted.  Whatever the user does while the submission is in flight
    (selecting other stars, closing and opening the form), the next timer
    event commits a review with the name, rating and comment of the oldest
    suspended draft, puts it at the head of the unchanged list, closes the
    form, empties the draft and the errors and clears [isSubmitting]. *)
Theorem in_flight_draft_is_committed (w : World) (d : Draft) (rest : list Draft)
    (acts : list Action) (clk : Clock) :
  timers w = d :: rest →
  let w' := step (run w (List.map User acts)) (Timeout clk) in
  reviews (ui w') =
    mkReview (now_id clk) (d_name d) (d_rating d) (d_comment d)
             (isoDay (now_date clk)) :: reviews (ui w)
  ∧ showForm (ui w') = false
  ∧ newReview (ui w') = emptyDraft
  ∧ formErrors (ui w') = ∅
  ∧ isSubmitting (ui w') = false.
Proof.
  intros Ht. destruct (run_users acts w) as [Hr [more Hm]].
  simpl. rewrite Hm, Ht. simpl. by rewrite Hr.
Qed.

Lemma in_flight_draft_is_committed_witness :
  let w := run initialWorld
             [User ClickAddReview;
              User (ChangeInput NameInput (lit "Alice"));
              User (SelectStar true 4);
              User (ChangeInput CommentTextarea (lit "Great product overall"));
              User SubmitForm] in
  let w' := step (run w (List.map User [SelectStar true 1; ClickAddReview]))
                 (Timeout (mkClock 1762041600000 1762041600000)) in
  reviews (ui w') =
    mkReview 1762041600000 (lit "Alice") 4 (lit "Great product overall") 20394
    :: initialReviews.
Proof.
  intros w w'.
  apply (in_flight_draft_is_committed w aliceDraft []
           [SelectStar true 1; ClickAddReview]
           (mkClock 1762041600000 1762041600000)).
  by vm_compute.
Defined.

Lemma step_User (w : World) (a : Action) :
  step w (User a) =
    mkWorld (fst (dispatch a (ui w)))
            (timers w ++ option_list (snd (dispatch a (ui w)))).
Proof. simpl. by destruct (dispatch a (ui w)). Qed.

(** X10. Writing a review end to end.  From a page whose form is closed and
    clean and with no submission in flight: opening the form, typing a name
    that is not blank, selecting one of the five stars, typing a comment of
    trimmed length at least 10, submitting and waiting for the timer commits
    exactly one review, with the name and the comment as typed (not
    trimmed), the selected star, the clock's reading as id and its UTC day
    as date; the review is at the head of the list, the counter is one more,
    the form is closed and clean again, and the sort and filter settings are
    untouched. *)
Theorem write_a_review (w : World) (name comment : jsstring) (star : Z) (clk : Clock) :
  showForm (ui w) = false → isSubmitting (ui w) = false →
  closedFormClean (ui w) → timers w = [] →
  trim name ≠ [] → isStar star = true → 10 ≤ jslength (trim comment) →
  run w [User ClickAddReview;
         User (ChangeInput NameInput name);
         User (SelectStar true star);
         User (ChangeInput CommentTextarea comment);
         User SubmitForm;
         Timeout clk]
  = mkWorld
      (mkState
         (mkReview (now_id clk) name star comment (isoDay (now_date clk))
          :: reviews (ui w))
         emptyDraft false false ∅ (sortBy (ui w)) (filterRating (ui w))
         (reviewCount (ui w) + 1))
      [].
Proof.
  destruct w as [[rs d sf sub errs sb fr rc] ts]. unfold closedFormClean.
  cbn [ui timers showForm isSubmitting newReview formErrors reviews sortBy
       filterRating reviewCount].
  intros -> -> Hclean -> Hname Hstar Hcomment.
  destruct Hclean as [-> ->]; [done |].
  assert (isStar star = true → 1 ≤ star) as _ by (intros; by apply isStar_range).
  assert (A1 : dispatch ClickAddReview (mkState rs emptyDraft false false ∅ sb fr rc)
               = (mkState rs emptyDraft true false ∅ sb fr rc, None)) by reflexivity.
  assert (A2 : dispatch (ChangeInput NameInput name)
                 (mkState rs emptyDraft true false ∅ sb fr rc)
               = (mkState rs (mkDraft name 0 []) true false ∅ sb fr rc, None)).
  { unfold dispatch, rendered, handler, handleInputChange.
    cbn [showForm isSubmitting formErrors andb negb targetName].
    rewrite lookup_empty. reflexivity. }
  assert (A3 : dispatch (SelectStar true star)
                 (mkState rs (mkDraft name 0 []) true false ∅ sb fr rc)
               = (mkState rs (mkDraft name star []) true false
                    (<["rating" := ""]> ∅) sb fr rc, None)).
  { unfold dispatch, rendered. cbn [showForm andb]. rewrite Hstar. reflexivity. }
  assert (A4 : dispatch (ChangeInput CommentTextarea comment)
                 (mkState rs (mkDraft name star []) true false
                    (<["rating" := ""]> ∅) sb fr rc)
               = (mkState rs (mkDraft name star comment) true false
                    (<["rating" := ""]> ∅) sb fr rc, None)).
  { unfold dispatch, rendered, handler, handleInputChange.
    cbn [showForm isSubmitting formErrors andb negb targetName].
    rewrite (lookup_insert_ne (M := gmap string)) by done. rewrite lookup_empty. reflexivity. }
  assert (A5 : dispatch SubmitForm
                 (mkState rs (mkDraft name star comment) true false
                    (<["rating" := ""]> ∅) sb fr rc)
               = (mkState rs (mkDraft name star comment) true true ∅ sb fr rc,
                  Some (mkDraft name star comment))).
  { unfold dispatch, rendered. cbn [showForm isSubmitting andb negb handler].
    rewrite handleSubmit_valid; [reflexivity |].
    unfold validDraft. cbn [newReview d_name d_rating d_comment].
    apply isStar_range in Hstar. split_and!; [done | lia | done]. }
  unfold run. cbn [fold_left].
  rewrite !step_User. cbn [ui timers].
  rewrite A1. cbn [fst snd option_list app]. 
  rewrite A2. cbn [fst snd option_list app].
  rewrite A3. cbn [fst snd option_list app].
  rewrite A4. cbn [fst snd option_list app].
  rewrite A5. cbn [fst snd option_list app].
  reflexivity.
Qed.

Lemma write_a_review_witness :
  run initialWorld
      [User ClickAddReview;
       User (ChangeInput NameInput (lit " Alice "));
       User (SelectStar true 4);
       User (ChangeInput CommentTextarea (lit "Great product overall"));
       User SubmitForm;
       Timeout (mkClock 1762041600000 1762041600000)]
  = mkWorld
      (mkState
         (mkReview 1762041600000 (lit " Alice ") 4 (lit "Great product overall")
                   20394 :: initialReviews)
         emptyDraft false false ∅ "date" 0 3)
      [].
Proof.
  apply (write_a_review initialWorld (lit " Alice ") (lit "Great product overall") 4
           (mkClock 1762041600000 1762041600000)); try reflexivity.
  - by intros _.
  - by vm_compute.
  - by vm_compute.
Defined.

(** X11. The review list only grows at its head.  After any sequence of
    events the list is the list before it with new reviews in front: no
    event removes, changes or reorders a stored review; and there are at
    most as many new reviews as timers fired, so user actions alone never
    change the list. *)
Theorem reviews_only_grow (w : World) (es : list Event) :
  ∃ new : list Review,
    reviews (ui (run w es)) = new ++ reviews (ui w)
    ∧ (length new ≤ length (List.filter isTimeout es))%nat.
Proof.
  revert w. induction es as [| e es IH]; intros w.
  - exists []. by split.
  - change (run w (e :: es)) with (run (step w e) es).
    destruct (IH (step w e)) as (new & Hnew & Hlen). rewrite Hnew.
    destruct e as [a | clk].
    + rewrite step_User. cbn [ui]. rewrite dispatch_reviews.
      exists new. by split.
    + cbn [step]. destruct (timers w) as [| d rest].
      * exists new. split; [done |]. simpl. lia.
      * exists (new ++ [mkReview (now_id clk) (d_name d) (d_rating d) (d_comment d)
                          (isoDay (now_date clk))]).
        split; [by rewrite <- app_assoc |].
        rewrite length_app. simpl. lia.
Qed.

(** ** The view *)

Lemma arraySort_id {A : Type} (comparefn : A → A → Z) (l : list A) :
  StronglySorted (before comparefn) l → arraySort comparefn l = l.
Proof.
  induction 1 as [| x l Hs IH Hx]; simpl; [done |].
  rewrite IH. by apply sortInsert_head.
Qed.

Lemma StronglySorted_filter {A : Type} (R : A → A → Prop) (p : A → bool)
    (l : list A) :
  StronglySorted R l → StronglySorted R (List.filter p l).
Proof.
  induction 1 as [| x l Hs IH Hx]; simpl; [constructor |].
  destruct (p x); [| done]. constructor; [done |].
  apply Forall_forall. intros y Hy. rewrite Forall_forall in Hx. apply Hx.
  apply list_elem_of_In, filter_In in Hy as [Hy _]. by apply list_elem_of_In.
Qed.

Lemma filterThenSort_sorted (sortKey : string) (wanted : Z) (rs : list Review) :
  StronglySorted (before (compareReviews sortKey)) (filterThenSort sortKey wanted rs).
Proof.
  apply arraySort_sorted; [apply compareReviews_trans | apply compareReviews_total].
Qed.

Lemma filter_keep_idem (wanted : Z) (rs : list Review) :
  List.filter (keepReview wanted) (List.filter (keepReview wanted) rs) =
    List.filter (keepReview wanted) rs.
Proof.
  induction rs as [| r rs IH]; simpl; [done |].
  destruct (keepReview wanted r) eqn:Hk; simpl; [| done]. by rewrite Hk, IH.
Qed.

Lemma filter_none {A : Type} (p : A → bool) (l : list A) :
  List.filter p l = [] ↔ ∀ x, x ∈ l → p x = false.
Proof.
  induction l as [| y l IH]; simpl.
  - split; [| done]. intros _ x Hx. by apply elem_of_nil in Hx.
  - destruct (p y) eqn:Hy.
    + split; [done |]. intros Hall. specialize (Hall y). rewrite Hy in Hall.
      discriminate Hall. left.
    + rewrite IH. split.
      * intros Hall x Hx. apply elem_of_cons in Hx as [-> | Hx]; [done | by apply Hall].
      * intros Hall x Hx. apply Hall. by right.
Qed.

(** X12. The sort key decides the order of the view only: under any two
    sort keys the view holds the same reviews, as many as pass the filter.
    The note "No reviews match the selected filters." is shown exactly
    when no stored review passes the filter; without a filter that is when
    there is no review at all. *)
Theorem view_holds_what_passes (st : State) :
  (∀ k1 k2 : string,
     Permutation (filterThenSort k1 (filterRating st) (reviews st))
                 (filterThenSort k2 (filterRating st) (reviews st)))
  ∧ Permutation (sortedAndFilteredReviews st)
                (List.filter (keepReview (filterRating st)) (reviews st))
  ∧ (noReviewsMatch st = true ↔
       ∀ r, r ∈ reviews st → filterRating st ≠ 0 ∧ r_rating r ≠ filterRating st)
  ∧ (filterRating st = 0 → (noReviewsMatch st = true ↔ reviews st = [])).
Proof.
  assert (Hempty : noReviewsMatch st = true ↔
            List.filter (keepReview (filterRating st)) (reviews st) = []).
  { unfold noReviewsMatch, sortedAndFilteredReviews, filterThenSort.
    rewrite Z.eqb_eq.
    rewrite (Permutation_length (arraySort_perm _ _)).
    destruct (List.filter _ _); simpl; split; try done; lia. }
  split_and!.
  - intros k1 k2. unfold filterThenSort. by rewrite !arraySort_perm.
  - apply arraySort_perm.
  - rewrite Hempty, filter_none. split.
    + intros Hall r Hr. specialize (Hall r Hr).
      unfold keepReview in Hall. apply orb_false_iff in Hall as [H0 Heq].
      apply Z.eqb_neq in H0, Heq. done.
    + intros Hall r Hr. destruct (Hall r Hr) as [H0 Heq].
      unfold keepReview. apply Z.eqb_neq in H0, Heq. by rewrite H0, Heq.
  - intros H0. rewrite Hempty, H0, filter_keep_all. done.
Qed.

(** X13. Sorting is idempotent, and leaves alone what is in order: the view
    of a view is the view; and when the stored list is already ordered by
    date, newest first, the view by date is the filtered list in its stored
    order (the stored list itself without a filter). *)
Theorem view_of_ordered_list (sortKey : string) (wanted : Z) (rs : list Review) :
  filterThenSort sortKey wanted (filterThenSort sortKey wanted rs)
    = filterThenSort sortKey wanted rs
  ∧ (StronglySorted newerFirst rs →
       filterThenSort "date" wanted rs = List.filter (keepReview wanted) rs
       ∧ filterThenSort "date" 0 rs = rs).
Proof.
  split.
  - unfold filterThenSort at 1.
    unfold filterThenSort at 1.
    rewrite filter_arraySort
      by (apply compareReviews_trans || apply compareReviews_total).
    rewrite filter_keep_idem.
    apply arraySort_id. apply filterThenSort_sorted.
  - intros Hs.
    assert (StronglySorted (before (compareReviews "date")) rs) as Hb.
    { eapply StronglySorted_impl; [| exact Hs].
      intros x y Hxy. unfold before. by apply compareReviews_date. }
    split.
    + apply arraySort_id. by apply StronglySorted_filter.
    + unfold filterThenSort. rewrite filter_keep_all. by apply arraySort_id.
Qed.

Lemma view_of_ordered_list_witness :
  sortedAndFilteredReviews initialState = initialReviews.
Proof.
  apply (view_of_ordered_list "date" 0 initialReviews).
  repeat constructor; unfold newerFirst; by vm_compute.
Defined.

(** X14. A committed review and the view.  The end of a submission keeps the
    sort and filter settings; the new review enters the view exactly when
    it passes the filter, and the other entries stay; and when the view is
    by date and no stored review has a later date than the new one, the new
    review is the first entry and the rest of the view is as before. *)
Theorem committed_review_in_view (d : Draft) (clk : Clock) (st : State) :
  let st' := handleSubmit_resume d clk st in
  let new := mkReview (now_id clk) (d_name d) (d_rating d) (d_comment d)
                      (isoDay (now_date clk)) in
  sortBy st' = sortBy st ∧ filterRating st' = filterRating st
  ∧ Permutation (sortedAndFilteredReviews st')
      (if keepReview (filterRating st) new
       then new :: sortedAndFilteredReviews st else sortedAndFilteredReviews st)
  ∧ (sortBy st ≠ "rating" → keepReview (filterRating st) new = true →
     Forall (fun r => r_date r ≤ isoDay (now_date clk)) (reviews st) →
     sortedAndFilteredReviews st' = new :: sortedAndFilteredReviews st).
Proof.
  simpl. split; [done |]. split; [done |].
  unfold sortedAndFilteredReviews, filterThenSort. simpl.
  split.
  - destruct (keepReview (filterRating st) _); simpl; [| done].
    apply sortInsert_perm.
  - intros Hkey Hkeep Hdates. rewrite Hkeep. simpl.
    apply sortInsert_head. apply Forall_forall. intros r Hr.
    rewrite (arraySort_perm (compareReviews (sortBy st))) in Hr.
    apply list_elem_of_In, filter_In in Hr as [Hr _].
    rewrite Forall_forall in Hdates.
    unfold before. apply compareReviews_date; [done |]. simpl.
    apply Hdates. by apply list_elem_of_In.
Qed.

Lemma committed_review_in_view_witness :
  sortedAndFilteredReviews
    (handleSubmit_resume aliceDraft (mkClock 1762041600000 1762041600000)
       initialState)
  = mkReview 1762041600000 (lit "Alice") 4 (lit "Great product overall") 20394
    :: initialReviews.
Proof.
  destruct (committed_review_in_view aliceDraft
              (mkClock 1762041600000 1762041600000) initialState)
    as (_ & _ & _ & H).
  rewrite H.
  - by vm_compute.
  - discriminate.
  - reflexivity.
  - repeat constructor; by vm_compute.
Defined.

(** ** The stars and the average *)

Lemma render_prefix (hoveredRating rating : Z) :
  let shown := Z.to_nat (Z.max 0 (Z.min 5 (orNum hoveredRating rating))) in
  StarRating.render hoveredRating rating =
    replicate shown true ++ replicate (5 - shown) false.
Proof.
  unfold StarRating.render, StarRating.stars, StarRating.filled.
  set (v := orNum hoveredRating rating). simpl.
  assert (v ≤ 0 ∨ v = 1 ∨ v = 2 ∨ v = 3 ∨ v = 4 ∨ 5 ≤ v) as Hv by lia.
  destruct Hv as [Hv | [-> | [-> | [-> | [-> | Hv]]]]]; try reflexivity.
  - replace (Z.max 0 (Z.min 5 v)) with 0 by lia.
    assert (∀ i, 1 ≤ i → (i <=? v) = false) as Hi
      by (intros i Hi; apply Z.leb_gt; lia).
    rewrite !Hi by lia. reflexivity.
  - replace (Z.max 0 (Z.min 5 v)) with 5 by lia.
    assert (∀ i, i ≤ 5 → (i <=? v) = true) as Hi
      by (intros i Hi; apply Z.leb_le; lia).
    rewrite !Hi by lia. reflexivity.
Qed.

(** X15. The filled stars are always the first ones: the widget fills the
    first [k] stars and no other, where [k] is the hover value when a star
    is hovered and the rating otherwise, cut to 0..5.  Entering star [v] of
    an interactive widget shows [v] filled stars whatever the rating;
    leaving it shows the rating again; a widget that is not interactive
    ignores the pointer. *)
Theorem StarRating_fills_prefix (hoveredRating rating : Z) :
  let fill := fun v : Z =>
    replicate (Z.to_nat (Z.max 0 (Z.min 5 v))) true
    ++ replicate (5 - Z.to_nat (Z.max 0 (Z.min 5 v))) false in
  StarRating.render hoveredRating rating = fill (orNum hoveredRating rating)
  ∧ (∀ v, v ≠ 0 →
       StarRating.render (StarRating.handleMouseEnter true v hoveredRating) rating
         = fill v)
  ∧ StarRating.render (StarRating.handleMouseLeave true hoveredRating) rating
      = fill rating
  ∧ (∀ v,
       StarRating.render (StarRating.handleMouseEnter false v hoveredRating) rating
         = StarRating.render hoveredRating rating
       ∧ StarRating.render (StarRating.handleMouseLeave false hoveredRating) rating
         = StarRating.render hoveredRating rating).
Proof.
  simpl. split_and!.
  - apply render_prefix.
  - intros v Hv. unfold StarRating.handleMouseEnter.
    rewrite render_prefix. unfold orNum.
    by destruct (Z.eqb_spec v 0).
  - unfold StarRating.handleMouseLeave. by rewrite render_prefix.
  - done.
Qed.

Lemma averageRating_tenths (rs : list Review) :
  Forall (fun r => 1 ≤ r_rating r ≤ 5) rs →
  Z.of_nat (length rs) < 2 ^ 32 →
  rs ≠ [] →
  let count := Z.of_nat (length rs) in
  let n := Number.tenths (Number.divPos (sumRatings rs) count) in
  averageRating rs = JsString (Number.fixed1 n)
  ∧ 0 < count ∧ count ≤ sumRatings rs ≤ 5 * count
  ∧ - count ≤ 2 * (n * count - 10 * sumRatings rs) ≤ count.
Proof.
  intros Hrange Hlen Hne. simpl.
  pose proof (sumRatings_bounds rs Hrange) as Hsum.
  assert (0 < Z.of_nat (length rs)) as Hc by (destruct rs; [done | simpl; lia]).
  assert (20 * sumRatings rs < 2 ^ 53) as Hs.
  { change (2 ^ 32) with 4294967296 in Hlen.
    change (2 ^ 53) with 9007199254740992. lia. }
  destruct (NumberFacts.tenths_near (sumRatings rs) (Z.of_nat (length rs)))
    as [Hn Hnear]; [lia | done | done |].
  split_and!; try done; try lia.
  unfold averageRating. destruct (Z.ltb_spec 0 (Z.of_nat (length rs))); [| lia].
  by rewrite toFixed1_divPos by lia.
Qed.

Lemma sumRatings_constant (k : Z) (rs : list Review) :
  Forall (fun r => r_rating r = k) rs → sumRatings rs = k * Z.of_nat (length rs).
Proof.
  rewrite sumRatings_foldr.
  induction 1 as [| r rs Hr _ IH]; simpl length; simpl foldr; lia.
Qed.

(** X16. The average shown for a list of reviews rated 1..5 is between 1.0
    and 5.0, and when all the reviews have the same rating [k] it is
    exactly [k.0]. *)
Theorem averageRating_range (rs : list Review) :
  Forall (fun r => 1 ≤ r_rating r ≤ 5) rs →
  Z.of_nat (length rs) < 2 ^ 32 →
  rs ≠ [] →
  (∃ n, averageRating rs = JsString (Number.fixed1 n) ∧ 10 ≤ n ≤ 50)
  ∧ (∀ k, Forall (fun r => r_rating r = k) rs →
       averageRating rs = JsString (pretty k +:+ ".0")).
Proof.
  intros Hrange Hlen Hne.
  destruct (averageRating_tenths rs Hrange Hlen Hne) as (Havg & Hc & Hsum & Hnear).
  set (n := Number.tenths _) in *. set (c := Z.of_nat (length rs)) in *.
  split.
  - exists n. split; [done |]. nia.
  - intros k Hk. rewrite Havg. f_equal.
    rewrite (sumRatings_constant k rs Hk) in Hnear. fold c in Hnear.
    assert (n = 10 * k) as -> by nia.
    unfold Number.fixed1.
    replace (10 * k / 10) with k by (symmetry; rewrite Z.mul_comm; by apply Z.div_mul).
    replace ((10 * k) mod 10) with 0 by (symmetry; rewrite Z.mul_comm; by apply Z.mod_mul).
    reflexivity.
Qed.

Lemma averageRating_range_witness :
  averageRating
    [mkReview 1 (lit "John Doe") 5 (lit "Excellent product!") 19737;
     mkReview 3 (lit "Ann Lee") 5 (lit "Works as described.") 19740]
  = JsString "5.0".
Proof.
  destruct (averageRating_range
    [mkReview 1 (lit "John Doe") 5 (lit "Excellent product!") 19737;
     mkReview 3 (lit "Ann Lee") 5 (lit "Works as described.") 19740])
    as [_ H].
  - repeat constructor; simpl; lia.
  - reflexivity.
  - discriminate.
  - apply (H 5). repeat constructor.
Defined.

(** ** The date of a review *)

(** X17. The date given to a committed review is the UTC day that holds the
    clock reading: read back as a date it is the midnight at or before the
    reading, less than a day earlier; and a review committed at a later
    reading never gets an earlier date. *)
Theorem committed_date_is_utc_day (d : Draft) (clk : Clock) (st : State) :
  ∃ r, reviews (handleSubmit_resume d clk st) = r :: reviews st
    ∧ dateValue r ≤ now_date clk < dateValue r + msPerDay
    ∧ isoDay (dateValue r) = r_date r
    ∧ (∀ d' clk' st', now_date clk ≤ now_date clk' →
         ∃ r', reviews (handleSubmit_resume d' clk' st') = r' :: reviews st'
           ∧ r_date r ≤ r_date r').
Proof.
  eexists. split; [reflexivity |].
  unfold dateValue, isoDay, msPerDay. simpl.
  pose proof (Z.div_mod (now_date clk) 86400000 ltac:(lia)) as Hdm.
  pose proof (Z.mod_pos_bound (now_date clk) 86400000 ltac:(lia)) as Hr.
  split_and!.
  - lia.
  - lia.
  - by apply Z.div_mul.
  - intros d' clk' st' Hle. eexists. split; [reflexivity |].
    cbn [r_date]. unfold isoDay, msPerDay. by apply Z.div_le_mono.
Qed.
